(** * Flatland rail environment: engine tick and rail generators

    A shallow embedding of [flatland/envs/rail_env.py] (the per-tick agent
    state machine [RailEnv.step]) and of the retry loops of
    [flatland/envs/rail_generators.py], followed by the properties of the
    specification that were checked against them.

    Modelling conventions.
    - Python integers are [Z]; agent handles (list indices) are [nat].
    - Python floats ([speed], [position_fraction], rewards) are exact
      rationals [Q]; only their comparisons and sums are used, and reward
      values are compared with [Qeq].
    - [self.agents] is a list updated by index; [self.dones] is the list of
      the per-handle flags together with the flag of the key ["__all__"];
      [self.rewards_dict] is a list indexed by handle (its keys are always
      [range(get_num_agents())]); [action_dict] is a finite map.
    - [np.random] is an explicit state: a stream of raw draws and a cursor. *)

From Stdlib Require Import ZArith QArith Lia Lqa.
From stdpp Require Import base list gmap.

Open Scope Z_scope.

(** ** Actions: [class RailEnvActions(IntEnum)] *)

Module RailEnvActions.
Definition DO_NOTHING : Z := 0.
Definition MOVE_LEFT : Z := 1.
Definition MOVE_FORWARD : Z := 2.
Definition MOVE_RIGHT : Z := 3.
Definition STOP_MOVING : Z := 4.
(** [len(RailEnvActions)] *)
Definition len : Z := 5.
End RailEnvActions.
Import RailEnvActions.

(** ** Rational comparisons used for the float tests *)

Definition Qlt_bool (x y : Q) : bool := negb (Qle_bool y x).

(** ** The explicit random state standing for [np.random] *)

Record RandomState := mkRandomState { raw : N -> Z; cursor : N }.

Definition next_raw (g : RandomState) : Z * RandomState :=
  (raw g (cursor g), {| raw := raw g; cursor := N.succ (cursor g) |}).

(** [np.random.randint(low, high)]: an integer of [low, high); numpy
    requires [low < high]. *)
Definition randint (low high : Z) (g : RandomState) : Z * RandomState :=
  let '(x, g') := next_raw g in (low + x mod (high - low), g').

(** [int(np.random.exponential(scale))]: some non-negative integer. *)
Definition exponential_int (scale : Q) (g : RandomState) : Z * RandomState :=
  let '(x, g') := next_raw g in (Z.abs x, g').

(** ** Transition codes and the grid *)

(** Modelled from the spec: [RailEnvTransitions.get_transitions] is not
    among the sources.  A cell code has 16 bits, four groups of four, one
    group per incoming direction N/E/S/W, each bit one outgoing direction
    N/E/S/W; this is also the layout that [random_rail_generator] reads
    with [(neigh_trans >> ((3 - k) * 4)) & (2 ** 4 - 1)] and the masks
    [1 << 3], [1 << 2], [1 << 1], [1] for N, E, S, W. *)
Definition get_transitions_of_code (cell_transition orientation : Z) : list Z :=
  let bits := Z.shiftr cell_transition ((3 - orientation) * 4) in
  [Z.land (Z.shiftr bits 3) 1; Z.land (Z.shiftr bits 2) 1;
   Z.land (Z.shiftr bits 1) 1; Z.land bits 1].

(** Modelled from the spec: [RailEnvTransitions.get_transition] is not among
    the sources; the bit of the outgoing [direction] in the group of the
    incoming [orientation]. *)
Definition get_transition_of_code (cell_transition orientation direction : Z) : Z :=
  Z.land (Z.shiftr (Z.shiftr cell_transition ((4 - 1 - orientation) * 4))
                   (4 - 1 - direction)) 1.

(** Modelled from the spec: [GridTransitionMap] is not among the sources; a
    height x width array of transition codes, [self.grid]. *)
Record GridTransitionMap := mkGrid { grid : list (list Z) }.

(** Modelled from the spec: [GridTransitionMap.get_full_transitions] is not
    among the sources; it is [self.grid[row][col]].  The engine only reads
    cells inside the grid. *)
Definition get_full_transitions (rail : GridTransitionMap) (row col : Z) : Z :=
  default 0 (grid rail !! Z.to_nat row ≫= (.!! Z.to_nat col)).

(** Modelled from the spec: [GridTransitionMap.get_transitions] is not among
    the sources; the legal exits of a cell for an incoming direction. *)
Definition get_transitions (rail : GridTransitionMap) (row col orientation : Z)
    : list Z :=
  get_transitions_of_code (get_full_transitions rail row col) orientation.

(** Modelled from the spec: [GridTransitionMap.get_transition] is not among
    the sources; is the exit [transition_index] legal for the cell and
    incoming direction [cell_id]. *)
Definition get_transition (rail : GridTransitionMap) (cell_id : Z * Z * Z)
    (transition_index : Z) : Z :=
  let '(row, col, orientation) := cell_id in
  get_transition_of_code (get_full_transitions rail row col) orientation transition_index.

(** Modelled from the spec: [MOVEMENT_ARRAY] of [grid4_utils] is not among
    the sources; the offsets of the N, E, S, W neighbours, as
    [random_rail_generator] lists them. *)
Definition MOVEMENT_ARRAY : list (Z * Z) := [(-1, 0); (0, 1); (1, 0); (0, -1)].

(** Modelled from the spec: [get_new_position] of [grid4_utils] is not among
    the sources; the neighbour of a cell in a direction. *)
Definition get_new_position (position : Z * Z) (movement : Z) : Z * Z :=
  let d := default (0, 0) (MOVEMENT_ARRAY !! Z.to_nat movement) in
  (fst position + fst d, snd position + snd d).

(** [np.count_nonzero] and [np.argmax] (first index of the maximum). *)
Definition count_nonzero (l : list Z) : Z :=
  Z.of_nat (length (filter (fun x => x <> 0) l)).

Fixpoint argmax_from (l : list Z) (i best_i best : Z) : Z :=
  match l with
  | [] => best_i
  | x :: l' => if best <? x then argmax_from l' (i + 1) i x
               else argmax_from l' (i + 1) best_i best
  end.

Definition argmax (l : list Z) : Z :=
  match l with
  | [] => 0
  | x :: l' => argmax_from l' 1 0 x
  end.

(** ** Agents *)

(** Modelled from the spec: [EnvAgent] of [agent_utils] is not among the
    sources; the records below have the fields that [rail_env.py] reads and
    writes: [speed_data], [malfunction_data] and the agent itself. *)
Record SpeedData := mkSpeedData {
  position_fraction : Q;
  speed : Q;
  transition_action_on_cellexit : Z }.

Record MalfunctionData := mkMalfunctionData {
  malfunction : Z;
  malfunction_rate : Q;
  next_malfunction : Z;
  nr_malfunctions : Z }.

Record EnvAgent := mkEnvAgent {
  position : Z * Z;
  direction : Z;
  target : Z * Z;
  moving : bool;
  speed_data : SpeedData;
  malfunction_data : MalfunctionData;
  old_direction : Z;
  old_position : Z * Z }.

Definition set_position_fraction (f : Q) (s : SpeedData) : SpeedData :=
  {| position_fraction := f; speed := speed s;
     transition_action_on_cellexit := transition_action_on_cellexit s |}.

Definition set_transition_action_on_cellexit (a : Z) (s : SpeedData) : SpeedData :=
  {| position_fraction := position_fraction s; speed := speed s;
     transition_action_on_cellexit := a |}.

Definition set_malfunction (m : Z) (d : MalfunctionData) : MalfunctionData :=
  {| malfunction := m; malfunction_rate := malfunction_rate d;
     next_malfunction := next_malfunction d; nr_malfunctions := nr_malfunctions d |}.

Definition set_next_malfunction (n : Z) (d : MalfunctionData) : MalfunctionData :=
  {| malfunction := malfunction d; malfunction_rate := malfunction_rate d;
     next_malfunction := n; nr_malfunctions := nr_malfunctions d |}.

Definition set_nr_malfunctions (n : Z) (d : MalfunctionData) : MalfunctionData :=
  {| malfunction := malfunction d; malfunction_rate := malfunction_rate d;
     next_malfunction := next_malfunction d; nr_malfunctions := n |}.

Definition set_position (p : Z * Z) (a : EnvAgent) : EnvAgent :=
  {| position := p; direction := direction a; target := target a; moving := moving a;
     speed_data := speed_data a; malfunction_data := malfunction_data a;
     old_direction := old_direction a; old_position := old_position a |}.

Definition set_direction (d : Z) (a : EnvAgent) : EnvAgent :=
  {| position := position a; direction := d; target := target a; moving := moving a;
     speed_data := speed_data a; malfunction_data := malfunction_data a;
     old_direction := old_direction a; old_position := old_position a |}.

Definition set_moving (m : bool) (a : EnvAgent) : EnvAgent :=
  {| position := position a; direction := direction a; target := target a; moving := m;
     speed_data := speed_data a; malfunction_data := malfunction_data a;
     old_direction := old_direction a; old_position := old_position a |}.

Definition set_speed_data (s : SpeedData) (a : EnvAgent) : EnvAgent :=
  {| position := position a; direction := direction a; target := target a;
     moving := moving a; speed_data := s; malfunction_data := malfunction_data a;
     old_direction := old_direction a; old_position := old_position a |}.

Definition set_malfunction_data (d : MalfunctionData) (a : EnvAgent) : EnvAgent :=
  {| position := position a; direction := direction a; target := target a;
     moving := moving a; speed_data := speed_data a; malfunction_data := d;
     old_direction := old_direction a; old_position := old_position a |}.

Definition set_old (a : EnvAgent) : EnvAgent :=
  {| position := position a; direction := direction a; target := target a;
     moving := moving a; speed_data := speed_data a;
     malfunction_data := malfunction_data a;
     old_direction := direction a; old_position := position a |}.

Definition pos_eqb (p q : Z * Z) : bool := (fst p =? fst q) && (snd p =? snd q).

(** ** The environment *)

Record RailEnv := mkRailEnv {
  height : Z;
  width : Z;
  rail : GridTransitionMap;
  agents : list EnvAgent;
  dones : list bool;
  dones_all : bool;
  rewards_dict : list Q;
  elapsed_steps : Z;
  max_episode_steps : option Z;
  min_number_of_steps_broken : Z;
  max_number_of_steps_broken : Z;
  np_random : RandomState }.

(** [get_num_agents()] counts [self.agents_static], which has one entry per
    agent of [self.agents]. *)
Definition get_num_agents (e : RailEnv) : nat := length (agents e).

(** The constants of [step]. *)
Definition alpha : Q := 1.
Definition beta : Q := 1.
Definition epsilon : Q := 1 # 100.
Definition invalid_action_penalty : Q := 0.
Definition step_penalty : Q := (-1) * alpha.
Definition global_reward : Q := 1 * beta.
Definition stop_penalty : Q := 0.
Definition start_penalty : Q := 0.

(** ** [RailEnv._agent_malfunction] *)

Definition _agent_malfunction (e : RailEnv) (g : RandomState) (agent : EnvAgent)
    : EnvAgent * RandomState :=
  let md := malfunction_data agent in
  (* Decrease counter for next event *)
  let md :=
    if Qlt_bool 0 (malfunction_rate md)
    then set_next_malfunction (next_malfunction md - 1) md else md in
  if Qlt_bool 0 (malfunction_rate md) && (malfunction md <=? 0) then
    if next_malfunction md <=? 0 then
      let md := set_nr_malfunctions (nr_malfunctions md + 1) md in
      let '(next_breakdown, g) := exponential_int (malfunction_rate md) g in
      let md := set_next_malfunction next_breakdown md in
      let '(r, g) := randint (min_number_of_steps_broken e)
                             (max_number_of_steps_broken e + 1) g in
      let num_broken_steps := r + 1 in
      (set_malfunction_data (set_malfunction num_broken_steps md) agent, g)
    else (set_malfunction_data md agent, g)
  else (set_malfunction_data md agent, g).

(** ** [RailEnv.check_action]: the new direction and, when already decided,
    the validity of the transition ([None] is Python's [None]). *)

Definition check_action (e : RailEnv) (agent : EnvAgent) (action : Z) : Z * option bool :=
  let possible_transitions :=
    get_transitions (rail e) (fst (position agent)) (snd (position agent))
                    (direction agent) in
  let num_transitions := count_nonzero possible_transitions in
  let '(new_direction, transition_valid) :=
    if action =? MOVE_LEFT then
      (direction agent - 1, if num_transitions <=? 1 then Some false else None)
    else if action =? MOVE_RIGHT then
      (direction agent + 1, if num_transitions <=? 1 then Some false else None)
    else (direction agent, None) in
  let new_direction := new_direction mod 4 in
  if (action =? MOVE_FORWARD) && (num_transitions =? 1)
  then (argmax possible_transitions, Some true)
  else (new_direction, transition_valid).

(** The tuple returned by [_check_action_on_agent]. *)
Record Checked := mkChecked {
  cell_free : bool;
  new_cell_valid : bool;
  new_direction : Z;
  new_position : Z * Z;
  transition_valid : bool }.

(** [np.array_equal(new_position, np.clip(new_position, [0, 0],
    [height - 1, width - 1]))] *)
Definition in_grid (e : RailEnv) (p : Z * Z) : bool :=
  (0 <=? fst p) && (fst p <=? height e - 1) && (0 <=? snd p) && (snd p <=? width e - 1).

(** ** [RailEnv._check_action_on_agent]; the occupancy test reads the
    positions of all agents as they are in [self.agents] at this moment. *)
Definition _check_action_on_agent (e : RailEnv) (action : Z) (agent : EnvAgent) : Checked :=
  let '(new_direction, transition_valid) := check_action e agent action in
  let new_position := get_new_position (position agent) new_direction in
  let new_cell_valid :=
    in_grid e new_position
    && (0 <? get_full_transitions (rail e) (fst new_position) (snd new_position)) in
  let transition_valid :=
    match transition_valid with
    | Some b => b
    | None =>
        negb (get_transition (rail e)
                (fst (position agent), snd (position agent), direction agent)
                new_direction =? 0)
    end in
  let cell_free :=
    negb (existsb (pos_eqb new_position) (map position (agents e))) in
  {| cell_free := cell_free; new_cell_valid := new_cell_valid;
     new_direction := new_direction; new_position := new_position;
     transition_valid := transition_valid |}.

(** ** The body of the agent loop of [RailEnv.step], in the order of the
    source.  [Skip] is Python's [continue]: the iteration of this agent ends
    with the agent and reward reached so far. *)

Inductive flow (A : Type) : Type :=
  | Skip (agent : EnvAgent) (reward : Q)
  | Go (x : A).
Arguments Skip {A} agent reward.
Arguments Go {A} x.

(** "The train is broken": returns the agent, its reward and the action left
    in [action_dict[i_agent]]. *)
Definition broken_phase (agent : EnvAgent) (reward : Q) (action : Z)
    : flow (EnvAgent * Q * Z) :=
  let md := malfunction_data agent in
  if 0 <? malfunction md then
    if malfunction md <? 2 then
      (* Last step of malfunction *)
      let agent := set_malfunction_data (set_malfunction (malfunction md - 1) md) agent in
      Go (set_moving true agent, reward, DO_NOTHING)
    else
      let agent := set_malfunction_data (set_malfunction (malfunction md - 1) md) agent in
      let reward := (reward + step_penalty * speed (speed_data agent))%Q in
      Skip (set_moving false agent) reward
  else Go (agent, reward, action).

(** The range test on the submitted action. *)
Definition sanitize_action (action : Z) : Z :=
  if (action <? 0) || (RailEnvActions.len <? action) then DO_NOTHING else action.

(** DO_NOTHING while moving, STOP_MOVING and the implicit start. *)
Definition normalize_phase (agent : EnvAgent) (reward : Q) (action : Z)
    : EnvAgent * Q * Z :=
  let action := if (action =? DO_NOTHING) && moving agent then MOVE_FORWARD else action in
  let '(agent, reward) :=
    if (action =? STOP_MOVING) && moving agent
       && Qle_bool (position_fraction (speed_data agent)) epsilon
    then (set_moving false agent, (reward + stop_penalty)%Q)
    else (agent, reward) in
  let '(agent, reward) :=
    if negb (moving agent) && negb ((action =? DO_NOTHING) || (action =? STOP_MOVING))
    then (set_moving true agent, (reward + start_penalty)%Q)
    else (agent, reward) in
  (agent, reward, action).

Definition check_ok (c : Checked) : bool := new_cell_valid c && transition_valid c.

(** The penalties of a rejected action. *)
Definition reject (agent : EnvAgent) (reward : Q) : EnvAgent * Q :=
  (set_moving false agent,
   (reward + invalid_action_penalty + step_penalty * speed (speed_data agent)
    + stop_penalty)%Q).

(** "If the agent can make an action": returns the agent, its reward and
    [action_selected]. *)
Definition boundary_phase (e : RailEnv) (agent : EnvAgent) (reward : Q) (action : Z)
    : flow (EnvAgent * Q * bool) :=
  if Qle_bool (position_fraction (speed_data agent)) epsilon then
    if negb (action =? DO_NOTHING) && negb (action =? STOP_MOVING) then
      if check_ok (_check_action_on_agent e action agent) then
        Go (set_speed_data (set_transition_action_on_cellexit action (speed_data agent))
              agent, reward, true)
      else if ((action =? MOVE_LEFT) || (action =? MOVE_RIGHT)) && moving agent then
        if check_ok (_check_action_on_agent e MOVE_FORWARD agent) then
          Go (set_speed_data
                (set_transition_action_on_cellexit MOVE_FORWARD (speed_data agent))
                agent, reward, true)
        else let '(agent, reward) := reject agent reward in Skip agent reward
      else let '(agent, reward) := reject agent reward in Skip agent reward
    else Go (agent, reward, false)
  else Go (agent, reward, false).

(** [position_fraction += speed] *)
Definition advance_phase (agent : EnvAgent) (action_selected : bool) : EnvAgent :=
  let sd := speed_data agent in
  if moving agent && (action_selected || Qlt_bool 0 (position_fraction sd))
  then set_speed_data (set_position_fraction (position_fraction sd + speed sd)%Q sd) agent
  else agent.

(** "Perform stored action to transition to the next cell" *)
Definition commit_phase (e : RailEnv) (agent : EnvAgent) : EnvAgent :=
  let sd := speed_data agent in
  if Qle_bool 1 (position_fraction sd) then
    let c := _check_action_on_agent e (transition_action_on_cellexit sd) agent in
    if new_cell_valid c && transition_valid c && cell_free c then
      let agent := set_position (new_position c) agent in
      let agent := set_direction (new_direction c) agent in
      set_speed_data (set_position_fraction 0 (speed_data agent)) agent
    else agent
  else agent.

(** The arrival test closing the iteration: the agent, [dones[i_agent]] and
    the reward. *)
Definition arrival_phase (agent : EnvAgent) (done : bool) (reward : Q)
    : EnvAgent * bool * Q :=
  if pos_eqb (position agent) (target agent)
  then (set_moving false agent, true, reward)
  else (agent, done, (reward + step_penalty * speed (speed_data agent))%Q).

(** From "The train is broken" to [position_fraction += speed]: the state
    of the iteration when it reaches the test [position_fraction >= 1.0]. *)
Definition pre_commit (e : RailEnv) (agent : EnvAgent) (reward : Q) (submitted : Z)
    : flow (EnvAgent * Q) :=
  match broken_phase agent reward submitted with
  | Skip agent reward => Skip agent reward
  | Go (agent, reward, action) =>
      let '(agent, reward, action) :=
        normalize_phase agent reward (sanitize_action action) in
      match boundary_phase e agent reward action with
      | Skip agent reward => Skip agent reward
      | Go (agent, reward, action_selected) =>
          Go (advance_phase agent action_selected, reward)
      end
  end.

(** Everything after the test [if self.dones[i_agent]: continue], for an
    agent that is not done yet: the agent, [dones[i_agent]] and the reward. *)
Definition movement (e : RailEnv) (agent : EnvAgent) (reward : Q) (submitted : Z)
    : EnvAgent * bool * Q :=
  match pre_commit e agent reward submitted with
  | Skip agent reward => (agent, false, reward)
  | Go (agent, reward) => arrival_phase (commit_phase e agent) false reward
  end.

(** One iteration of [for i_agent in range(self.get_num_agents())] on the
    agent [self.agents[i_agent]]: the agent, [dones[i_agent]],
    [rewards_dict[i_agent]] and the state of [np.random] it leaves.  The
    agent is written back to [self.agents] at the end of the iteration; its
    position is only rewritten by the commit, so the occupancy tests made
    before read the same positions from [agents e] as from the live list. *)
Definition process_agent (action_dict : gmap nat Z) (i_agent : nat) (e : RailEnv)
    (agent : EnvAgent) : EnvAgent * bool * Q * RandomState :=
  let agent := set_old agent in
  (* Check if agent breaks at this step *)
  let '(agent, g) := _agent_malfunction e (np_random e) agent in
  let done := default false (dones e !! i_agent) in
  let reward := default 0%Q (rewards_dict e !! i_agent) in
  if done then (agent, done, reward, g)
  else (movement e agent reward (default DO_NOTHING (action_dict !! i_agent)), g).

Definition step_agent (action_dict : gmap nat Z) (i_agent : nat) (e : RailEnv) : RailEnv :=
  match agents e !! i_agent with
  | None => e
  | Some agent =>
      let '(agent, done, reward, g) := process_agent action_dict i_agent e agent in
      {| height := height e; width := width e; rail := rail e;
         agents := <[i_agent := agent]> (agents e);
         dones := <[i_agent := done]> (dones e);
         dones_all := dones_all e;
         rewards_dict := <[i_agent := reward]> (rewards_dict e);
         elapsed_steps := elapsed_steps e;
         max_episode_steps := max_episode_steps e;
         min_number_of_steps_broken := min_number_of_steps_broken e;
         max_number_of_steps_broken := max_number_of_steps_broken e;
         np_random := g |}
  end.

(** The agent loop: handles in ascending order, each iteration on the state
    left by the previous ones. *)
Fixpoint agent_loop (action_dict : gmap nat Z) (handles : list nat) (e : RailEnv)
    : RailEnv :=
  match handles with
  | [] => e
  | i_agent :: rest => agent_loop action_dict rest (step_agent action_dict i_agent e)
  end.

Definition set_rewards (r : list Q) (e : RailEnv) : RailEnv :=
  {| height := height e; width := width e; rail := rail e; agents := agents e;
     dones := dones e; dones_all := dones_all e; rewards_dict := r;
     elapsed_steps := elapsed_steps e; max_episode_steps := max_episode_steps e;
     min_number_of_steps_broken := min_number_of_steps_broken e;
     max_number_of_steps_broken := max_number_of_steps_broken e;
     np_random := np_random e |}.

Definition set_dones (d : list bool) (all : bool) (e : RailEnv) : RailEnv :=
  {| height := height e; width := width e; rail := rail e; agents := agents e;
     dones := d; dones_all := all; rewards_dict := rewards_dict e;
     elapsed_steps := elapsed_steps e; max_episode_steps := max_episode_steps e;
     min_number_of_steps_broken := min_number_of_steps_broken e;
     max_number_of_steps_broken := max_number_of_steps_broken e;
     np_random := np_random e |}.

Definition set_elapsed_steps (n : Z) (e : RailEnv) : RailEnv :=
  {| height := height e; width := width e; rail := rail e; agents := agents e;
     dones := dones e; dones_all := dones_all e; rewards_dict := rewards_dict e;
     elapsed_steps := n; max_episode_steps := max_episode_steps e;
     min_number_of_steps_broken := min_number_of_steps_broken e;
     max_number_of_steps_broken := max_number_of_steps_broken e;
     np_random := np_random e |}.

Definition at_target (agent : EnvAgent) : bool := pos_eqb (position agent) (target agent).

(** "Check for end of episode + add global reward to all rewards!" *)
Definition end_of_episode (e : RailEnv) : RailEnv :=
  if forallb at_target (agents e)
  then set_rewards (map (fun r => 0 * r + global_reward)%Q (rewards_dict e))
         (set_dones (dones e) true e)
  else e.

Definition episode_limit (e : RailEnv) : RailEnv :=
  match max_episode_steps e with
  | Some m => if m <=? elapsed_steps e then set_dones (map (fun _ => true) (dones e)) true e
              else e
  | None => e
  end.

(** [info_dict['actionable_agents']], by handle. *)
Definition actionable_agents (e : RailEnv) : list bool :=
  map (fun agent => Qle_bool (position_fraction (speed_data agent)) epsilon) (agents e).

(** ** [RailEnv.step]: the new environment (with [rewards_dict] and [dones])
    and [actionable_agents]; the observations are built outside the engine. *)
Definition step (action_dict_ : gmap nat Z) (e : RailEnv) : RailEnv * list bool :=
  let e := set_elapsed_steps (elapsed_steps e + 1) e in
  (* Reset the step rewards *)
  let e := set_rewards (replicate (get_num_agents e) 0%Q) e in
  if dones_all e then
    let e := set_rewards (map (fun r => r + global_reward)%Q (rewards_dict e)) e in
    (e, replicate (get_num_agents e) false)
  else
    let e := agent_loop action_dict_ (seq 0 (get_num_agents e)) e in
    let e := end_of_episode e in
    let e := episode_limit e in
    (e, actionable_agents e).

(** A run of ticks, one action dictionary per tick. *)
Fixpoint run (ticks : list (gmap nat Z)) (e : RailEnv) : RailEnv :=
  match ticks with
  | [] => e
  | action_dict :: rest => run rest (fst (step action_dict e))
  end.

(** * Rail generators ([flatland/envs/rail_generators.py]) *)

(** Python exceptions that reach the caller of a generator. *)
Inductive exn := ValueError.

Inductive result (A : Type) : Type :=
  | Ok (x : A)
  | Raise (err : exn).
Arguments Ok {A} x.
Arguments Raise {A} err.

#[export] Instance result_bind : MBind result := fun A B k m =>
  match m with
  | Ok x => k x
  | Raise err => Raise err
  end.

#[export] Instance result_ret : MRet result := fun A x => Ok x.

(** Per city: the inner and the outer connection points of the four sides
    and the number of connection points per side. *)
Definition ConnectionPoints : Type :=
  (list (list (Z * Z)) * list (list (Z * Z)) * list Z)%type.

(** The hints of [sparse_rail_generator]. *)
Record SparseHints := mkSparseHints {
  hint_num_agents : Z;
  agent_start_targets_nodes : list (Z * Z);
  train_stations : list (list (Z * Z)) }.

(** The collaborators of the generators that are not among the sources:
    the stream that [np.random.seed] installs, the path search of
    [grid4_generators_utils], the direction helpers of [grid4_utils], the
    table and the rotation of [RailEnvTransitions], the float computations
    of the grid layout of cities, and the parts of the sparse generator that
    call helpers of [grid_utils] or of [grid4_generators_utils] that are not
    among the sources. *)
Class RailLib := {
  (** [np.random.seed(s)] makes the draws that follow a function of [s] *)
  mt19937 : Z -> N -> Z;
  (** [connect_rail(rail_trans, grid_map, start, end)]: the grid it leaves and
      the path it returns *)
  connect_rail : GridTransitionMap -> Z * Z -> Z * Z -> GridTransitionMap * list (Z * Z);
  get_direction : Z * Z -> Z * Z -> Z;
  mirror : Z -> Z;
  (** [RailEnvTransitions().transitions] *)
  transitions : list Z;
  (** [rotate_transition(cell_transition, rotation)] *)
  rotate_transition : Z -> Z -> Z;
  (** the centre of city [node_idx] on the grid layout
      ([np.sqrt], [np.ceil], [np.linspace]) *)
  grid_mode_position : Z -> Z -> Z -> Z -> nat -> Z * Z;
  (** one pass of the loop of [_generate_node_connection_points], for the
      city [node_position]: it calls [distance_on_rail] with a keyword
      [metric] and [direction_to_point], and the [grid_utils.py] among the
      sources defines neither *)
  connection_points_of_node :
    list (Z * Z) -> Z * Z -> Z -> Z -> Z -> RandomState ->
    result (ConnectionPoints * RandomState);
  (** the rest of the sparse generator, from [_connect_cities] on (it needs
      [connect_cities] and [connect_straigt_line]) *)
  finish_sparse :
    GridTransitionMap -> list (Z * Z) -> list (Z * Z) -> list ConnectionPoints -> Z ->
    Z -> RandomState -> result (GridTransitionMap * SparseHints * RandomState) }.

(** [def distance_on_rail(pos1, pos2)] of [flatland/core/grid/grid_utils.py] *)
Definition distance_on_rail (pos1 pos2 : Z * Z) : Z :=
  Z.abs (fst pos1 - fst pos2) + Z.abs (snd pos1 - snd pos2).

(** [GridTransitionMap(width, height)] after [rail_array.fill(0)] *)
Definition empty_grid (width height : Z) : GridTransitionMap :=
  {| grid := replicate (Z.to_nat height) (replicate (Z.to_nat width) 0) |}.

(** [rail_array[pos]] *)
Definition rail_at (rail : GridTransitionMap) (pos : Z * Z) : Z :=
  get_full_transitions rail (fst pos) (snd pos).

Section Generators.
Context {L : RailLib}.

Definition np_random_seed (s : Z) : RandomState := {| raw := mt19937 s; cursor := 0 |}.

(** ** [complex_rail_generator] *)

Definition sanity_max : Z := 9000.

(** [start = (randint(0, height), randint(0, width))] and the same for
    [goal], drawn in this order. *)
Definition sample_start_goal (width height : Z) (g : RandomState)
    : (Z * Z) * (Z * Z) * RandomState :=
  let '(r0, g) := randint 0 height g in
  let '(c0, g) := randint 0 width g in
  let '(r1, g) := randint 0 height g in
  let '(c1, g) := randint 0 width g in
  ((r0, c0), (r1, c1), g).

(** [for _ in range(n)]: sample until [accept] holds; [None] when the loop
    ends with [all_ok] still false. *)
Fixpoint sample_loop (n : nat) (accept : Z * Z -> Z * Z -> bool) (width height : Z)
    (g : RandomState) : option ((Z * Z) * (Z * Z)) * RandomState :=
  match n with
  | O => (None, g)
  | S n' =>
      let '(start, goal, g) := sample_start_goal width height g in
      if accept start goal then (Some (start, goal), g)
      else sample_loop n' accept width height g
  end.

Definition check_all_dist (start_goal : list ((Z * Z) * (Z * Z)))
    (sg_new : (Z * Z) * (Z * Z)) : bool :=
  forallb (fun sg =>
    forallb (fun a =>
      forallb (fun b => negb (distance_on_rail a b <? 2)) [fst sg; snd sg])
      [fst sg_new; snd sg_new]) start_goal.

(** The tests of one sample of the first loop; [false] is [continue]. *)
Definition accept_start_goal (min_dist max_dist : Z) (rail : GridTransitionMap)
    (start_goal : list ((Z * Z) * (Z * Z))) (start goal : Z * Z) : bool :=
  if negb (rail_at rail goal =? 0) || negb (rail_at rail start =? 0) then false
  else
    let dist_sg := distance_on_rail start goal in
    if dist_sg <? min_dist then false
    else if max_dist <? dist_sg then false
    else check_all_dist start_goal (start, goal).

(** The variables of the first [while] loop. *)
Record PairState := mkPairState {
  ps_grid : GridTransitionMap;
  ps_start_goal : list ((Z * Z) * (Z * Z));
  ps_start_dir : list Z;
  ps_nr_created : Z;
  ps_created_sanity : Z;
  ps_rng : RandomState }.

Definition set_ps_rng (g : RandomState) (s : PairState) : PairState :=
  {| ps_grid := ps_grid s; ps_start_goal := ps_start_goal s;
     ps_start_dir := ps_start_dir s; ps_nr_created := ps_nr_created s;
     ps_created_sanity := ps_created_sanity s; ps_rng := g |}.

(** One pass of [while nr_created < nr_start_goal and created_sanity <
    sanity_max]: [inl] is [break], [inr] goes back to the loop test. *)
Definition pair_body (width height min_dist max_dist : Z) (s : PairState)
    : PairState + PairState :=
  match sample_loop (Z.to_nat sanity_max)
          (accept_start_goal min_dist max_dist (ps_grid s) (ps_start_goal s))
          width height (ps_rng s) with
  | (None, g) => inl (set_ps_rng g s)
  | (Some (start, goal), g) =>
      let '(grid', new_path) := connect_rail (ps_grid s) start goal in
      if 2 <=? Z.of_nat (length new_path) then
        inr {| ps_grid := grid';
               ps_start_goal := ps_start_goal s ++ [(start, goal)];
               ps_start_dir := ps_start_dir s ++
                 [mirror (get_direction (default (0, 0) (new_path !! 0%nat))
                                        (default (0, 0) (new_path !! 1%nat)))];
               ps_nr_created := ps_nr_created s + 1;
               ps_created_sanity := ps_created_sanity s;
               ps_rng := g |}
      else
        inr {| ps_grid := grid'; ps_start_goal := ps_start_goal s;
               ps_start_dir := ps_start_dir s; ps_nr_created := ps_nr_created s;
               ps_created_sanity := ps_created_sanity s + 1; ps_rng := g |}
  end.

Definition pair_cond (nr_start_goal : Z) (s : PairState) : bool :=
  (ps_nr_created s <? nr_start_goal) && (ps_created_sanity s <? sanity_max).

(** The first [while] loop with a bound on the number of passes; [None]
    when the bound is reached before the loop ends. *)
Fixpoint pair_loop (fuel : nat) (nr_start_goal width height min_dist max_dist : Z)
    (s : PairState) : option PairState :=
  if pair_cond nr_start_goal s then
    match fuel with
    | O => None
    | S fuel' =>
        match pair_body width height min_dist max_dist s with
        | inl s' => Some s'
        | inr s' => pair_loop fuel' nr_start_goal width height min_dist max_dist s'
        end
    end
  else Some s.

(** The variables of the second [while] loop ("add extra connections
    between existing rail"). *)
Record ExtraState := mkExtraState {
  xs_grid : GridTransitionMap;
  xs_nr_created : Z;
  xs_created_sanity : Z;
  xs_rng : RandomState }.

Definition accept_extra (rail : GridTransitionMap) (start goal : Z * Z) : bool :=
  if (rail_at rail goal =? 0) || (rail_at rail start =? 0) then false else true.

Definition extra_body (width height : Z) (s : ExtraState) : ExtraState + ExtraState :=
  match sample_loop (Z.to_nat sanity_max) (accept_extra (xs_grid s)) width height
          (xs_rng s) with
  | (None, g) =>
      inl {| xs_grid := xs_grid s; xs_nr_created := xs_nr_created s;
             xs_created_sanity := xs_created_sanity s; xs_rng := g |}
  | (Some (start, goal), g) =>
      let '(grid', new_path) := connect_rail (xs_grid s) start goal in
      inr {| xs_grid := grid';
             xs_nr_created := if 2 <=? Z.of_nat (length new_path)
                              then xs_nr_created s + 1 else xs_nr_created s;
             xs_created_sanity := xs_created_sanity s; xs_rng := g |}
  end.

Definition extra_cond (nr_extra : Z) (s : ExtraState) : bool :=
  (xs_nr_created s <? nr_extra) && (xs_created_sanity s <? sanity_max).

Fixpoint extra_loop (fuel : nat) (nr_extra width height : Z) (s : ExtraState)
    : option ExtraState :=
  if extra_cond nr_extra s then
    match fuel with
    | O => None
    | S fuel' =>
        match extra_body width height s with
        | inl s' => Some s'
        | inr s' => extra_loop fuel' nr_extra width height s'
        end
    end
  else Some s.

(** The hints of [complex_rail_generator]: ['start_goal'] and ['start_dir']. *)
Record ComplexHints := mkComplexHints {
  start_goal : list ((Z * Z) * (Z * Z));
  start_dir : list Z }.

Definition complex_initial (width height seed num_resets : Z) : PairState :=
  {| ps_grid := empty_grid width height; ps_start_goal := []; ps_start_dir := [];
     ps_nr_created := 0; ps_created_sanity := 0;
     ps_rng := np_random_seed (seed + num_resets) |}.

(** [complex_rail_generator(...).generator(width, height, num_agents,
    num_resets)], run with the state [ambient] of [np.random] and at most
    [fuel] passes of each [while] loop: the grid, the hints and the state of
    [np.random] it leaves. *)
Definition complex_rail_generator (nr_start_goal nr_extra min_dist max_dist seed : Z)
    (fuel : nat) (ambient : RandomState) (width height num_agents num_resets : Z)
    : option (GridTransitionMap * ComplexHints * RandomState) :=
  let num_agents := if nr_start_goal <? num_agents then nr_start_goal else num_agents in
  match pair_loop fuel nr_start_goal width height min_dist max_dist
          (complex_initial width height seed num_resets) with
  | None => None
  | Some s =>
      match extra_loop fuel nr_extra width height
              {| xs_grid := ps_grid s; xs_nr_created := 0; xs_created_sanity := 0;
                 xs_rng := ps_rng s |} with
      | None => None
      | Some x =>
          Some (xs_grid x,
                {| start_goal := ps_start_goal s; start_dir := ps_start_dir s |},
                xs_rng x)
      end
  end.

(** ** [sparse_rail_generator] *)

(** [np.random.randint(high)]: [ValueError] unless [0 < high]. *)
Definition randint_checked (high : Z) (g : RandomState) : result (Z * RandomState) :=
  if 0 <? high then Ok (randint 0 high g) else Raise ValueError.

Definition _city_overlap (center_1 center_2 : Z * Z) (radius : Z) : bool :=
  (Z.abs (fst center_1 - fst center_2) <? radius)
  && (Z.abs (snd center_1 - snd center_2) <? radius).

(** [range(lo, hi)] *)
Definition zrange (lo hi : Z) : list Z :=
  map (fun k => lo + Z.of_nat k) (seq 0 (Z.to_nat (hi - lo))).

Definition _city_cells (center : Z * Z) (radius : Z) : list (Z * Z) :=
  flat_map (fun x => map (fun y => (fst center + x, snd center + y))
                         (zrange (- radius) (radius + 1)))
           (zrange (- radius) (radius + 1)).

(** The [while to_close] loop that places one city; [remaining] counts the
    passes left before [tries > 200] breaks the loop. *)
Fixpoint place_city (remaining : nat) (node_radius height width : Z)
    (node_positions city_cells : list (Z * Z)) (g : RandomState)
    : result (list (Z * Z) * list (Z * Z) * RandomState) :=
  match remaining with
  | O => Ok (node_positions, city_cells, g)
  | S remaining' =>
      '(x, g) ← randint_checked (height - 2 * (node_radius + 1)) g;
      '(y, g) ← randint_checked (width - 2 * (node_radius + 1)) g;
      let x_tmp := node_radius + 1 + x in
      let y_tmp := node_radius + 1 + y in
      let to_close :=
        existsb (fun node_pos =>
                   _city_overlap (x_tmp, y_tmp) node_pos (2 * (node_radius + 1) + 1))
                node_positions in
      if negb to_close then
        Ok (node_positions ++ [(x_tmp, y_tmp)],
            city_cells ++ _city_cells (x_tmp, y_tmp) node_radius, g)
      else
        match remaining' with
        | O => Ok (node_positions, city_cells, g)
        | S _ => place_city remaining' node_radius height width node_positions
                   city_cells g
        end
  end.

Fixpoint place_cities (nb_nodes : nat) (node_radius height width : Z)
    (node_positions city_cells : list (Z * Z)) (g : RandomState)
    : result (list (Z * Z) * list (Z * Z) * RandomState) :=
  match nb_nodes with
  | O => Ok (node_positions, city_cells, g)
  | S nb_nodes' =>
      '(node_positions, city_cells, g) ←
        place_city 201 node_radius height width node_positions city_cells g;
      place_cities nb_nodes' node_radius height width node_positions city_cells g
  end.

Definition _generate_random_node_positions (nb_nodes node_radius height width : Z)
    (g : RandomState) : result (list (Z * Z) * list (Z * Z) * RandomState) :=
  place_cities (Z.to_nat nb_nodes) node_radius height width [] [] g.

Definition _generate_node_positions_grid_mode (nb_nodes node_radius height width : Z)
    : list (Z * Z) * list (Z * Z) :=
  let node_positions :=
    map (grid_mode_position nb_nodes node_radius height width)
        (seq 0 (Z.to_nat nb_nodes)) in
  (node_positions, flat_map (fun p => _city_cells p node_radius) node_positions).

(** [for node_position in node_positions]: one pass per city, in order. *)
Fixpoint connection_points_loop (all_positions todo : list (Z * Z))
    (node_size max_inter_city_rails_allowed tracks_in_city : Z) (g : RandomState)
    : result (list ConnectionPoints * RandomState) :=
  match todo with
  | [] => Ok ([], g)
  | node_position :: rest =>
      '(points, g) ← connection_points_of_node all_positions node_position
                       node_size max_inter_city_rails_allowed tracks_in_city g;
      '(others, g) ← connection_points_loop all_positions rest node_size
                       max_inter_city_rails_allowed tracks_in_city g;
      Ok (points :: others, g)
  end.

Definition _generate_node_connection_points (node_positions : list (Z * Z))
    (node_size max_inter_city_rails_allowed tracks_in_city : Z) (g : RandomState)
    : result (list ConnectionPoints * RandomState) :=
  connection_points_loop node_positions node_positions node_size
    max_inter_city_rails_allowed tracks_in_city g.

(** [sparse_rail_generator(...).generator(width, height, num_agents,
    num_resets)], run with the state [ambient] of [np.random]. *)
Definition sparse_rail_generator (num_cities : Z) (grid_mode : bool)
    (max_inter_city_rails max_tracks_in_city seed : Z)
    (ambient : RandomState) (width height num_agents num_resets : Z)
    : result (GridTransitionMap * SparseHints * RandomState) :=
  let grid_map := empty_grid width height in
  let g := np_random_seed (seed + num_resets) in
  (* int(np.ceil((max_tracks_in_city + 2) / 2.0)) + 1 *)
  let node_radius := (max_tracks_in_city + 2 + 1) / 2 + 1 in
  let max_inter_city_rails_allowed :=
    if max_tracks_in_city <? max_inter_city_rails
    then max_tracks_in_city else max_inter_city_rails in
  let nb_nodes := num_cities in
  '(node_positions, city_cells, g) ←
    (if grid_mode
     then let '(ps, cs) :=
            _generate_node_positions_grid_mode nb_nodes node_radius height width in
          Ok (ps, cs, g)
     else _generate_random_node_positions nb_nodes node_radius height width g);
  '(points, g) ← _generate_node_connection_points node_positions node_radius
                   max_inter_city_rails_allowed max_tracks_in_city g;
  finish_sparse grid_map node_positions city_cells points node_radius num_agents g.

(** ** [random_rail_generator] (template fill) *)

(** [int('0010000000000000', 2)] *)
Definition dead_end : Z := 8192.

(** The 4-bit template of a code: does N/E/S/W carry any outgoing
    transition; [bin(all_transitions)[2:]] padded to four digits. *)
Definition template_of_code (code : Z) : list Z :=
  let all_transitions :=
    fold_left (fun acc dir_ =>
      match get_transitions_of_code code dir_ with
      | [t0; t1; t2; t3] =>
          Z.lor acc (Z.lor (Z.lor (Z.lor (Z.shiftl t0 3) (Z.shiftl t1 2))
                                  (Z.shiftl t2 1)) t3)
      | _ => acc
      end) [0; 1; 2; 3] 0 in
  [Z.land (Z.shiftr all_transitions 3) 1; Z.land (Z.shiftr all_transitions 2) 1;
   Z.land (Z.shiftr all_transitions 1) 1; Z.land all_transitions 1].

(** [[template[-1]] + template[:-1]] *)
Definition rotate_template (template : list Z) : list Z :=
  match reverse template with
  | [] => []
  | x :: rest => x :: reverse rest
  end.

(** "add all rotations" of one base code. *)
Fixpoint add_rotations (rots : list Z) (template : list Z) (code : Z) (p : Q)
    : list (list Z * Z * Q) :=
  match rots with
  | [] => []
  | rot :: rots' =>
      (template, rotate_transition code rot, p)
      :: add_rotations rots' (rotate_template template) code p
  end.

(** [transitions_templates_] zipped with [transition_probabilities]. *)
Definition transitions_templates_ (cell_type_relative_proportion : list Q)
    : list (list Z * Z * Q) :=
  flat_map (fun i =>
    let code := default 0 (transitions !! i) in
    if code =? dead_end then []
    else add_rotations [0; 90; 180; 270] (template_of_code code) code
           (default 0%Q (cell_type_relative_proportion !! i)))
    (seq 0 (length transitions)).

Definition template_matches (template entry : list Z) : bool :=
  forallb (fun te => negb ((0 <=? fst te) && negb (fst te =? snd te)))
          (zip template entry).

Definition get_matching_templates (table : list (list Z * Z * Q)) (template : list Z)
    : list (Z * Q) :=
  omap (fun e => if template_matches template (fst (fst e))
                 then Some (snd (fst e), snd e) else None) table.

(** [np.random.choice(n, 1)[0]] *)
Definition choice_index (n : Z) (g : RandomState) : Z * RandomState := randint 0 n g.

Fixpoint pick_by_cdf (items : list (Z * Q)) (total u acc : Q) (last : Z) : Z :=
  match items with
  | [] => last
  | (x, p) :: rest =>
      let acc := (acc + p / total)%Q in
      if Qlt_bool u acc then x else pick_by_cdf rest total u acc x
  end.

(** [np.random.choice(possible_transitions, p=possible_probabilities)] with
    [p / sum(p)]: a uniform draw of [0, 1) looked up in the cumulated
    probabilities. *)
Definition choice_weighted (items : list (Z * Q)) (g : RandomState) : Z * RandomState :=
  let '(x, g) := next_raw g in
  let u := (inject_Z (x mod 2 ^ 53) / inject_Z (2 ^ 53))%Q in
  let total := fold_right (fun e acc => (snd e + acc)%Q) 0%Q items in
  (pick_by_cdf items total u 0 0, g).

Definition rail_get (rail : list (list (option Z))) (r c : Z) : option Z :=
  match rail !! Z.to_nat r with
  | Some row => match row !! Z.to_nat c with Some v => v | None => None end
  | None => None
  end.

Definition rail_set (rail : list (list (option Z))) (r c : Z) (v : option Z)
    : list (list (option Z)) :=
  alter (fun row => <[Z.to_nat c := v]> row) (Z.to_nat r) rail.

(** [cells_to_fill.remove(cell)]: the first equal element goes. *)
Fixpoint remove_first (cell : Z * Z) (l : list (Z * Z)) : list (Z * Z) :=
  match l with
  | [] => []
  | x :: l' => if pos_eqb x cell then l' else x :: remove_first cell l'
  end.

(** The constraint that the neighbour in direction [el0] puts on a cell:
    -1 when the neighbour is not filled. *)
Definition neighbour_constraint (rail : list (list (option Z))) (row col : Z)
    (el : Z * (Z * Z)) : Z :=
  match rail_get rail (row + fst (snd el)) (col + snd (snd el)) with
  | None => -1
  | Some neigh_trans =>
      let max_bit :=
        fold_left (fun acc k => Z.lor acc (get_transition_of_code neigh_trans k (fst el)))
                  [0; 1; 2; 3] 0 in
      if max_bit =? 0 then 0 else 1
  end.

Definition valid_template_of (rail : list (list (option Z))) (row col : Z) : list Z :=
  map (neighbour_constraint rail row col)
      [(2, (-1, 0)); (3, (0, 1)); (0, (1, 0)); (1, (0, -1))].

(** The search for the single constraint whose removal leaves the most
    matches: [bestk] and [besttrans]. *)
Definition best_relaxation (table : list (list Z * Z * Q)) (valid_template : list Z)
    : Z * list (Z * Q) :=
  fold_left (fun best k =>
    let tmp_template := <[Z.to_nat k := -1]> valid_template in
    let possible := get_matching_templates table tmp_template in
    if (length (snd best) <? length possible)%nat then (k, possible) else best)
    [0; 1; 2; 3] (-1, []).

(** The first [k] with [valid_template[k] == v]. *)
Fixpoint first_index_of (v : Z) (l : list Z) (k : Z) : Z :=
  match l with
  | [] => k
  | x :: l' => if x =? v then k else first_index_of v l' (k + 1)
  end.

Record FillState := mkFillState {
  fs_rail : list (list (option Z));
  fs_cells_to_fill : list (Z * Z);
  fs_num_insertions : Z;
  fs_rng : RandomState }.

(** One pass of [while num_insertions < MAX_INSERTIONS and
    len(cells_to_fill) > 0]. *)
Definition fill_body (table : list (list Z * Z * Q)) (s : FillState) : FillState :=
  let '(idx, g) := choice_index (Z.of_nat (length (fs_cells_to_fill s))) (fs_rng s) in
  let cell := default (0, 0) (fs_cells_to_fill s !! Z.to_nat idx) in
  let cells_to_fill := remove_first cell (fs_cells_to_fill s) in
  let row := fst cell in
  let col := snd cell in
  let rail := fs_rail s in
  let valid_template := valid_template_of rail row col in
  let possible_cell_transitions := get_matching_templates table valid_template in
  match possible_cell_transitions with
  | [] =>
      if Z.of_nat (length (filter (fun x => x = 1) valid_template)) =? 1 then
        let k := first_index_of 1 valid_template 0 in
        let rot := if k =? 0 then 180 else if k =? 1 then 270
                   else if k =? 2 then 0 else 90 in
        {| fs_rail := rail_set rail row col (Some (rotate_transition dead_end rot));
           fs_cells_to_fill := cells_to_fill;
           fs_num_insertions := fs_num_insertions s + 1; fs_rng := g |}
      else
        let '(bestk, besttrans) := best_relaxation table valid_template in
        if 0 <=? bestk then
          let '(replace_row, replace_col) :=
            if bestk =? 1 then (row, col + 1)
            else if bestk =? 2 then (row + 1, col)
            else if bestk =? 3 then (row, col - 1)
            else (row - 1, col) in
          let cells_to_fill := cells_to_fill ++ [(replace_row, replace_col)] in
          let rail := rail_set rail replace_row replace_col None in
          let '(t, g) := choice_weighted besttrans g in
          {| fs_rail := rail_set rail row col (Some t);
             fs_cells_to_fill := cells_to_fill;
             fs_num_insertions := fs_num_insertions s + 1; fs_rng := g |}
        else
          {| fs_rail := rail_set rail row col (Some 0);
             fs_cells_to_fill := cells_to_fill;
             fs_num_insertions := fs_num_insertions s + 1; fs_rng := g |}
  | _ =>
      let '(t, g) := choice_weighted possible_cell_transitions g in
      {| fs_rail := rail_set rail row col (Some t);
         fs_cells_to_fill := cells_to_fill;
         fs_num_insertions := fs_num_insertions s + 1; fs_rng := g |}
  end.

(** The inner [while]; every pass adds one to [num_insertions], so
    [budget] passes are left when [num_insertions = MAX_INSERTIONS - budget]. *)
Fixpoint fill_loop (budget : nat) (table : list (list Z * Z * Q)) (s : FillState)
    : FillState :=
  match budget with
  | O => s
  | S budget' =>
      match fs_cells_to_fill s with
      | [] => s
      | _ => fill_loop budget' table (fill_body table s)
      end
  end.

(** The state at the start of one attempt from scratch. *)
Definition fresh_fill (width height : Z) (g : RandomState) : FillState :=
  {| fs_rail := replicate (Z.to_nat height) (replicate (Z.to_nat width) None);
     fs_cells_to_fill :=
       flat_map (fun r => map (fun c => (r, c)) (zrange 1 (width - 1)))
                (zrange 1 (height - 1));
     fs_num_insertions := 0; fs_rng := g |}.

(** [while attempt_number < MAX_ATTEMPTS_FROM_SCRATCH]; [remaining] attempts
    are left.  The flag tells whether every attempt failed, that is
    [attempt_number == MAX_ATTEMPTS_FROM_SCRATCH] after the loop. *)
Fixpoint fill_attempts (remaining : nat) (table : list (list Z * Z * Q))
    (width height : Z) (g : RandomState) : FillState * bool :=
  let MAX_INSERTIONS := (width - 2) * (height - 2) * 10 in
  let s := fill_loop (Z.to_nat MAX_INSERTIONS) table (fresh_fill width height g) in
  if fs_num_insertions s =? MAX_INSERTIONS then
    match remaining with
    | O | 1%nat => (s, true)
    | S remaining' => fill_attempts remaining' table width height (fs_rng s)
    end
  else (s, false).

(** Does the neighbour cell offer a transition whose bit is in [mask]. *)
Definition offers (neigh_trans : option Z) (mask : Z) : bool :=
  match neigh_trans with
  | None => false
  | Some t =>
      negb (fold_left (fun max_bit k =>
              Z.lor max_bit (Z.land (Z.land (Z.shiftr t ((3 - k) * 4)) (2 ^ 4 - 1)) mask))
              [0; 1; 2; 3] 0 =? 0)
  end.

(** "Finally pad the border of the map with dead-ends". *)
Definition pad_rows (width height : Z) (rail : list (list (option Z)))
    : list (list (option Z)) :=
  fold_left (fun rail r =>
    let rail :=
      rail_set rail r 0
        (Some (if offers (rail_get rail r 1) 1
               then rotate_transition dead_end 270 else 0)) in
    rail_set rail r (width - 1)
      (Some (if offers (rail_get rail r (width - 2)) (Z.shiftl 1 2)
             then rotate_transition dead_end 90 else 0)))
    (zrange 0 height) rail.

Definition pad_columns (width height : Z) (rail : list (list (option Z)))
    : list (list (option Z)) :=
  fold_left (fun rail c =>
    let rail :=
      rail_set rail 0 c
        (Some (if offers (rail_get rail 1 c) (Z.shiftl 1 3) then dead_end else 0)) in
    rail_set rail (height - 1) c
      (Some (if offers (rail_get rail (height - 2) c) (Z.shiftl 1 1)
             then rotate_transition dead_end 180 else 0)))
    (zrange 0 width) rail.

(** [random_rail_generator(cell_type_relative_proportion).generator(width,
    height, num_agents, num_resets)], run with the state [ambient] of
    [np.random]: the grid (the hints are [None]), whether
    ['ERROR: failed to generate level'] was printed, and the state of
    [np.random] it leaves. *)
Definition random_rail_generator (cell_type_relative_proportion : list Q)
    (ambient : RandomState) (width height num_agents num_resets : Z)
    : GridTransitionMap * bool * RandomState :=
  let table := transitions_templates_ cell_type_relative_proportion in
  let '(s, failed) := fill_attempts 10 table width height ambient in
  let rail := pad_columns width height (pad_rows width height (fs_rail s)) in
  ({| grid := map (map (default 0)) rail |}, failed, fs_rng s).

End Generators.

(** * Notions used in the statements, and sample data *)

(** The agent as the branch "Last step of malfunction" leaves it. *)
Definition repaired (agent : EnvAgent) : EnvAgent :=
  let md := malfunction_data agent in
  set_moving true (set_malfunction_data (set_malfunction (malfunction md - 1) md) agent).

(** The conjunction [all([new_cell_valid, transition_valid, cell_free])]. *)
Definition commit_ok (c : Checked) : bool :=
  new_cell_valid c && transition_valid c && cell_free c.

(** Every handle has its done flag, and an agent that stands on its target
    is marked done and does not move. *)
Definition settled (e : RailEnv) : Prop :=
  length (dones e) = length (agents e)
  ∧ ∀ i agent, agents e !! i = Some agent → at_target agent = true →
      dones e !! i = Some true ∧ moving agent = false.

(** The state of the agent loop before the iteration of handle [k]. *)
Definition tick_inv (k : nat) (e : RailEnv) : Prop :=
  settled e
  ∧ length (rewards_dict e) = length (agents e)
  ∧ ∀ i agent r, agents e !! i = Some agent → rewards_dict e !! i = Some r →
      (k ≤ i)%nat ∨ at_target agent = true → (r == 0)%Q.

(** A 7 x 7 grid whose only rail is an east-west straight track on the
    cells (3,1), (3,2), (3,3): code [0000 0100 0000 0001]. *)
Definition sample_row : list Z := replicate 7 0.

Definition sample_rail : GridTransitionMap :=
  {| grid := [sample_row; sample_row; sample_row; [0; 1025; 1025; 1025; 0; 0; 0];
              sample_row; sample_row; sample_row] |}.

Definition sample_agent (position : Z * Z) (direction : Z) (target : Z * Z)
    (malfunction : Z) : EnvAgent :=
  {| position := position; direction := direction; target := target; moving := false;
     speed_data := {| position_fraction := 0; speed := 1;
                      transition_action_on_cellexit := 0 |};
     malfunction_data := {| malfunction := malfunction; malfunction_rate := 10;
                            next_malfunction := 7; nr_malfunctions := 1 |};
     old_direction := direction; old_position := position |}.

Definition sample_rng : RandomState := {| raw := fun n => Z.of_N n; cursor := 0 |}.

Definition sample_env (agents : list EnvAgent) : RailEnv :=
  {| height := 7; width := 7; rail := sample_rail; agents := agents;
     dones := map (fun _ => false) agents; dones_all := false;
     rewards_dict := map (fun _ => 0%Q) agents; elapsed_steps := 0;
     max_episode_steps := None; min_number_of_steps_broken := 1;
     max_number_of_steps_broken := 3; np_random := sample_rng |}.

(** One agent two cells west of its target, heading east. *)
Definition one_agent_env (malfunction : Z) : RailEnv :=
  sample_env [sample_agent (3, 1) 1 (3, 3) malfunction].

(** Two agents at the two ends of the track, heading towards each other. *)
Definition facing_agents_env : RailEnv :=
  sample_env [sample_agent (3, 1) 1 (3, 3) 0; sample_agent (3, 3) 3 (3, 1) 0].

Definition both_forward : gmap nat Z :=
  {[0%nat := MOVE_FORWARD; 1%nat := MOVE_FORWARD]}.

(** An episode that is over: the only agent is on its target. *)
Definition finished_env : RailEnv :=
  set_dones [true] true (sample_env [sample_agent (3, 3) 1 (3, 3) 0]).

(** The agent of [one_agent_env 0] when its first iteration, with
    MOVE_FORWARD, reaches the commit test. *)
Definition advanced_agent : EnvAgent :=
  {| position := (3, 1); direction := 1; target := (3, 3); moving := true;
     speed_data := {| position_fraction := 1; speed := 1;
                      transition_action_on_cellexit := MOVE_FORWARD |};
     malfunction_data := {| malfunction := 0; malfunction_rate := 10;
                            next_malfunction := 7; nr_malfunctions := 1 |};
     old_direction := 1; old_position := (3, 1) |}.

(** Two agents; the first one stands on its target. *)
Definition resting_agent_env (malfunction : Z) : RailEnv :=
  sample_env [sample_agent (3, 1) 1 (3, 1) malfunction; sample_agent (3, 3) 3 (3, 2) 0].

(** Modelled from the spec: the rotation of one group of four bits, to the
    right by [rot] places ([RailEnvTransitions] is not among the sources). *)
Definition rotate_group (b rot : Z) : Z :=
  Z.lor (Z.shiftr b rot) (Z.land (Z.shiftl b (4 - rot)) 15).

(** Modelled from the spec: [RailEnvTransitions.rotate_transition] is not
    among the sources.  A rotation by a multiple of 90 degrees permutes the
    bits within each group of four and the order of the four groups in the
    same way: both are rotated to the right by [rotation // 90] places. *)
Definition rotate_transition_model (cell_transition rotation : Z) : Z :=
  let rot := rotation / 90 in
  let value :=
    fold_left (fun acc i =>
      Z.lor acc (Z.shiftl (rotate_group (Z.land (Z.shiftr cell_transition ((3 - i) * 4)) 15)
                                        rot) ((3 - i) * 4)))
      [0; 1; 2; 3] 0 in
  Z.lor (Z.shiftl (Z.land value (2 ^ (rot * 4) - 1)) ((4 - rot) * 4))
        (Z.shiftr value (rot * 4)).

(** A sample of the collaborators, to run the generators on concrete
    inputs: a linear congruential stream, a path search that never finds a
    path, and a table of transitions made of the three codes that the
    sources spell out (the empty cell, the diamond crossing
    [1000010000100001] and the dead end). *)
Definition sample_stream (s : Z) (n : N) : Z :=
  (1103515245 * (s + Z.of_N n) + 12345) mod 2 ^ 31.

Definition sample_lib : RailLib := {|
  mt19937 := sample_stream;
  connect_rail := fun grid_map _ _ => (grid_map, []);
  get_direction := fun pos1 pos2 =>
    if fst pos2 - fst pos1 <? 0 then 0
    else if 0 <? fst pos2 - fst pos1 then 2
    else if 0 <? snd pos2 - snd pos1 then 1 else 3;
  mirror := fun d => (d + 2) mod 4;
  transitions := [0; 33825; 8192];
  rotate_transition := rotate_transition_model;
  grid_mode_position := fun _ node_radius _ _ node_idx =>
    (node_radius + 1, node_radius + 1 + Z.of_nat node_idx);
  connection_points_of_node := fun _ _ _ _ _ g => Ok (([], [], []), g);
  finish_sparse := fun grid_map _ _ _ _ num_agents g =>
    Ok (grid_map,
        {| hint_num_agents := num_agents; agent_start_targets_nodes := [];
           train_stations := [] |}, g) |}.

(** Two states of [np.random]: every raw draw is 0, every raw draw is
    [2 ^ 52]. *)
Definition ambient_zero : RandomState := {| raw := fun _ => 0; cursor := 0 |}.
Definition ambient_half : RandomState := {| raw := fun _ => 2 ^ 52; cursor := 0 |}.

(** The grid that the template-fill generator gives for a 3 x 3 map, with
    equal proportions, when [np.random] is in the state [ambient]. *)
Definition template_fill_3x3 (ambient : RandomState) : GridTransitionMap :=
  fst (fst (random_rail_generator (L := sample_lib) (replicate 3 1%Q) ambient 3 3 1 0)).

(** The sparse generator with two cities, random placement and the default
    track numbers, on a square map of side [size]. *)
Definition sparse_two_cities (size : Z)
    : result (GridTransitionMap * SparseHints * RandomState) :=
  sparse_rail_generator (L := sample_lib) 2 false 4 4 0 ambient_zero size size 1 0.

(** The measure of the first loop of [complex_rail_generator]: the pairs and
    the failed connections that are still allowed. *)
Definition pair_measure (nr_start_goal : Z) (s : PairState) : nat :=
  (Z.to_nat (nr_start_goal - ps_nr_created s)
   + Z.to_nat (sanity_max - ps_created_sanity s))%nat.

(** What the first loop keeps true. *)
Definition pair_inv (nr_start_goal : Z) (s : PairState) : Prop :=
  0 <= ps_nr_created s <= Z.max 0 nr_start_goal
  ∧ 0 <= ps_created_sanity s <= sanity_max
  ∧ Z.of_nat (length (ps_start_goal s)) = ps_nr_created s
  ∧ length (ps_start_dir s) = length (ps_start_goal s).

(** * Properties of the engine *)

(** ** What the phases of one iteration leave alone *)

Ltac phase_cases :=
  repeat (case_match; simplify_eq /=); try done.

Lemma agent_malfunction_frame e g agent :
  let agent' := fst (_agent_malfunction e g agent) in
  position agent' = position agent ∧ direction agent' = direction agent
  ∧ target agent' = target agent ∧ moving agent' = moving agent
  ∧ speed_data agent' = speed_data agent.
Proof.
  unfold _agent_malfunction, exponential_int, randint, next_raw.
  phase_cases.
Qed.

Lemma broken_phase_place agent reward action :
  match broken_phase agent reward action with
  | Skip agent' _ | Go (agent', _, _) =>
      position agent' = position agent ∧ direction agent' = direction agent
      ∧ target agent' = target agent ∧ speed_data agent' = speed_data agent
  end.
Proof. unfold broken_phase. phase_cases. Qed.

Lemma normalize_phase_place agent reward action :
  let agent' := fst (fst (normalize_phase agent reward action)) in
  position agent' = position agent ∧ direction agent' = direction agent
  ∧ target agent' = target agent ∧ speed_data agent' = speed_data agent
  ∧ malfunction_data agent' = malfunction_data agent.
Proof. unfold normalize_phase. phase_cases. Qed.

Lemma boundary_phase_place e agent reward action :
  match boundary_phase e agent reward action with
  | Skip agent' _ | Go (agent', _, _) =>
      position agent' = position agent ∧ direction agent' = direction agent
      ∧ target agent' = target agent
      ∧ malfunction_data agent' = malfunction_data agent
      ∧ position_fraction (speed_data agent') = position_fraction (speed_data agent)
      ∧ speed (speed_data agent') = speed (speed_data agent)
  end.
Proof. unfold boundary_phase, reject. phase_cases. Qed.

Lemma advance_phase_place agent action_selected :
  let agent' := advance_phase agent action_selected in
  position agent' = position agent ∧ direction agent' = direction agent
  ∧ target agent' = target agent ∧ moving agent' = moving agent
  ∧ malfunction_data agent' = malfunction_data agent
  ∧ speed (speed_data agent') = speed (speed_data agent)
  ∧ transition_action_on_cellexit (speed_data agent')
    = transition_action_on_cellexit (speed_data agent).
Proof. unfold advance_phase. phase_cases. Qed.

Lemma pre_commit_place e agent reward submitted :
  match pre_commit e agent reward submitted with
  | Skip agent' _ | Go (agent', _) =>
      position agent' = position agent ∧ direction agent' = direction agent
      ∧ target agent' = target agent
  end.
Proof.
  unfold pre_commit.
  pose proof (broken_phase_place agent reward submitted) as Hb.
  destruct (broken_phase agent reward submitted) as [a1 r1|[[a1 r1] act1]].
  { destruct Hb as (? & ? & ? & _). done. }
  pose proof (normalize_phase_place a1 r1 (sanitize_action act1)) as Hn.
  destruct (normalize_phase a1 r1 (sanitize_action act1)) as [[a2 r2] act2].
  simpl in Hn.
  pose proof (boundary_phase_place e a2 r2 act2) as Hy.
  destruct (boundary_phase e a2 r2 act2) as [a3 r3|[[a3 r3] sel]].
  { intuition congruence. }
  pose proof (advance_phase_place a3 sel) as Ha. simpl in Ha.
  intuition congruence.
Qed.

(** The commit either leaves the agent in its cell or moves it to the cell
    that the occupancy test found free. *)
Lemma commit_phase_position e agent :
  let c := _check_action_on_agent e
             (transition_action_on_cellexit (speed_data agent)) agent in
  (position (commit_phase e agent) = position agent
   ∧ direction (commit_phase e agent) = direction agent)
  ∨ (position (commit_phase e agent) = new_position c ∧ cell_free c = true
     ∧ position_fraction (speed_data (commit_phase e agent)) = 0%Q).
Proof.
  unfold commit_phase.
  destruct (Qle_bool 1 _); [|by left].
  destruct (new_cell_valid _ && transition_valid _ && cell_free _) eqn:Hok; [|by left].
  right. apply andb_true_iff in Hok as [_ Hfree]. by simpl.
Qed.

Lemma arrival_phase_place agent done reward :
  let agent' := fst (fst (arrival_phase agent done reward)) in
  position agent' = position agent ∧ direction agent' = direction agent
  ∧ target agent' = target agent ∧ speed_data agent' = speed_data agent
  ∧ malfunction_data agent' = malfunction_data agent.
Proof. unfold arrival_phase. phase_cases. Qed.

Lemma pos_eqb_eq p q : pos_eqb p q = true ↔ p = q.
Proof.
  unfold pos_eqb. destruct p, q; simpl.
  rewrite andb_true_iff, !Z.eqb_eq. split; [intros [-> ->]; done|].
  intros [= -> ->]. done.
Qed.

Lemma cell_free_not_elem e action agent :
  cell_free (_check_action_on_agent e action agent) = true →
  new_position (_check_action_on_agent e action agent) ∉ map position (agents e).
Proof.
  unfold _check_action_on_agent.
  destruct (check_action e agent action) as [nd tv]; simpl.
  intros Hfree Hin. apply negb_true_iff in Hfree.
  assert (existsb (pos_eqb (get_new_position (position agent) nd))
            (map position (agents e)) = true) as Hex; [|congruence].
  apply existsb_exists. eexists; split; [by apply list_elem_of_In|].
  by apply pos_eqb_eq.
Qed.

(** The occupancy test only looks at the cell and the heading of the agent. *)
Lemma check_action_on_agent_place e action agent agent' :
  position agent' = position agent → direction agent' = direction agent →
  _check_action_on_agent e action agent' = _check_action_on_agent e action agent.
Proof.
  intros Hp Hd. unfold _check_action_on_agent, check_action. by rewrite Hp, Hd.
Qed.

(** After one iteration the agent is in its old cell, or in a cell that no
    agent occupied when the iteration ran, with a progress fraction of 0. *)
Lemma process_agent_position action_dict i e agent :
  let agent' := fst (fst (fst (process_agent action_dict i e agent))) in
  position agent' = position agent
  ∨ ((position agent' ∉ map position (agents e))
     ∧ position_fraction (speed_data agent') = 0%Q).
Proof.
  unfold process_agent.
  pose proof (agent_malfunction_frame e (np_random e) (set_old agent)) as Hm.
  destruct (_agent_malfunction e (np_random e) (set_old agent)) as [a1 g1].
  simpl in Hm. destruct Hm as (Hp1 & Hd1 & _).
  destruct (default false (dones e !! i)); simpl; [by left|].
  unfold movement.
  pose proof (pre_commit_place e a1
    (default 0%Q (rewards_dict e !! i)) (default DO_NOTHING (action_dict !! i))) as Hc.
  destruct (pre_commit _ _ _ _) as [a2 r2|[a2 r2]]; simpl.
  { left. destruct Hc as [-> _]. done. }
  destruct Hc as (Hp2 & Hd2 & _).
  pose proof (arrival_phase_place (commit_phase e a2) false r2) as Ha.
  simpl in Ha. destruct Ha as (-> & _ & _ & -> & _).
  destruct (commit_phase_position e a2) as [[-> _]|(-> & Hfree & Hzero)].
  - left. by rewrite Hp2, Hp1.
  - right. split; [by apply cell_free_not_elem|done].
Qed.

(** ** Cell exclusivity *)

Lemma NoDup_insert_fresh {A : Type} (l : list A) (i : nat) (x : A) :
  NoDup l → x ∉ l → NoDup (<[i := x]> l).
Proof.
  intros Hnd. revert i. induction Hnd as [|y l Hy Hnd IH]; intros i Hx; [constructor|].
  apply not_elem_of_cons in Hx as [Hxy Hxl].
  destruct i as [|i]; simpl.
  - by constructor.
  - constructor; [|by apply IH].
    intros Hin. apply list_elem_of_lookup in Hin as [j Hj].
    destruct (decide (i = j)) as [->|Hne].
    + destruct (decide (j < length l)%nat) as [Hlt|Hge].
      * rewrite list_lookup_insert_eq in Hj by done. congruence.
      * rewrite list_insert_ge in Hj by lia.
        apply Hy, list_elem_of_lookup. eauto.
    + rewrite list_lookup_insert_ne in Hj by done.
      apply Hy, list_elem_of_lookup. eauto.
Qed.

Lemma positions_insert (l : list EnvAgent) i agent agent' :
  l !! i = Some agent →
  map position (<[i := agent']> l) = <[i := position agent']> (map position l).
Proof. intros _. apply list_fmap_insert. Qed.

Lemma step_agent_agents action_dict i e agent :
  agents e !! i = Some agent →
  agents (step_agent action_dict i e)
  = <[i := fst (fst (fst (process_agent action_dict i e agent)))]> (agents e).
Proof.
  intros Hi. unfold step_agent. rewrite Hi.
  by destruct (process_agent action_dict i e agent) as [[[a d] r] g].
Qed.

Lemma step_agent_NoDup action_dict i e :
  NoDup (map position (agents e)) →
  NoDup (map position (agents (step_agent action_dict i e))).
Proof.
  intros Hnd. destruct (agents e !! i) as [agent|] eqn:Hi.
  - rewrite (step_agent_agents _ _ _ _ Hi).
    rewrite (positions_insert _ _ agent) by done.
    destruct (process_agent_position action_dict i e agent) as [Heq|[Hfresh _]].
    + rewrite Heq, list_insert_id; [done|].
      by rewrite list_lookup_fmap, Hi.
    + by apply NoDup_insert_fresh.
  - unfold step_agent. by rewrite Hi.
Qed.

Lemma agent_loop_NoDup action_dict handles e :
  NoDup (map position (agents e)) →
  NoDup (map position (agents (agent_loop action_dict handles e))).
Proof.
  revert e. induction handles as [|i handles IH]; intros e Hnd; [done|].
  simpl. by apply IH, step_agent_NoDup.
Qed.

Lemma end_of_episode_agents e : agents (end_of_episode e) = agents e.
Proof. unfold end_of_episode. by destruct (forallb at_target (agents e)). Qed.

Lemma episode_limit_agents e : agents (episode_limit e) = agents e.
Proof. unfold episode_limit. phase_cases. Qed.

Lemma step_NoDup action_dict e :
  NoDup (map position (agents e)) →
  NoDup (map position (agents (fst (step action_dict e)))).
Proof.
  intros Hnd. unfold step. simpl. destruct (dones_all e); simpl; [done|].
  rewrite episode_limit_agents, end_of_episode_agents.
  by apply agent_loop_NoDup.
Qed.

(** C1. From a state in which the agents occupy pairwise distinct cells,
    after every tick of a run the positions of the agents are still pairwise
    distinct; each iteration of the agent loop keeps them distinct, because
    a position is only rewritten, together with a progress fraction reset
    to 0, with a cell that no agent occupies in the list of agents as it is
    when the iteration runs, that is with the positions already updated by
    the agents of lower handle. *)
Theorem no_two_agents_share_a_cell (ticks : list (gmap nat Z))
    (action_dict : gmap nat Z) (i : nat) (e : RailEnv) :
  NoDup (map position (agents e)) →
  NoDup (map position (agents (run ticks e)))
  ∧ NoDup (map position (agents (step_agent action_dict i e)))
  ∧ ∀ agent agent',
      agents e !! i = Some agent →
      agents (step_agent action_dict i e) !! i = Some agent' →
      position agent' ≠ position agent →
      (position agent' ∉ map position (agents e))
      ∧ position_fraction (speed_data agent') = 0%Q.
Proof.
  intros Hnd. split; [|split].
  - revert e Hnd. induction ticks as [|t ticks IH]; intros e Hnd; [done|].
    simpl. by apply IH, step_NoDup.
  - by apply step_agent_NoDup.
  - intros agent agent' Hi Hi' Hmoved.
    rewrite (step_agent_agents _ _ _ _ Hi) in Hi'.
    rewrite list_lookup_insert_eq in Hi' by (by eapply lookup_lt_Some).
    injection Hi' as <-.
    by destruct (process_agent_position action_dict i e agent).
Qed.

(** ** After global completion *)

Lemma map_replicate {A B : Type} (f : A → B) (n : nat) (x : A) :
  map f (replicate n x) = replicate n (f x).
Proof. induction n as [|n IH]; simpl; [done|by rewrite IH]. Qed.

Lemma step_all_done action_dict e :
  dones_all e = true →
  step action_dict e
  = (set_rewards (replicate (length (agents e)) 1%Q)
       (set_elapsed_steps (elapsed_steps e + 1) e),
     replicate (length (agents e)) false).
Proof.
  intros Hall. unfold step. simpl. rewrite Hall.
  unfold get_num_agents. simpl. by rewrite map_replicate.
Qed.

(** C10. Once the flag of ["__all__"] is set, a call of [step] returns the
    reward 1.0 (the global bonus) for every handle and an all-false
    [actionable_agents], and leaves the agents (position, direction, moving
    flag, progress fraction, malfunction record), the done flags and the
    random state as they were; the flag stays set, so this holds for every
    later call too. *)
Theorem step_after_global_done (action_dict : gmap nat Z) (ticks : list (gmap nat Z))
    (e : RailEnv) :
  dones_all e = true →
  (let '(e', info) := step action_dict e in
   agents e' = agents e ∧ dones e' = dones e ∧ dones_all e' = true
   ∧ np_random e' = np_random e
   ∧ rewards_dict e' = replicate (length (agents e)) global_reward
   ∧ info = replicate (length (agents e)) false)
  ∧ agents (run ticks e) = agents e
  ∧ dones (run ticks e) = dones e
  ∧ dones_all (run ticks e) = true
  ∧ np_random (run ticks e) = np_random e.
Proof.
  intros Hall. split.
  - by rewrite step_all_done.
  - revert e Hall. induction ticks as [|t ticks IH]; intros e Hall; [done|].
    simpl. rewrite step_all_done by done. simpl.
    destruct (IH (set_rewards (replicate (length (agents e)) 1%Q)
                    (set_elapsed_steps (elapsed_steps e + 1) e))) as (? & ? & ? & ?);
      done.
Qed.

(** ** Malfunction ticks *)

Lemma agent_malfunction_active e g agent :
  0 < malfunction (malfunction_data agent) →
  snd (_agent_malfunction e g agent) = g
  ∧ malfunction (malfunction_data (fst (_agent_malfunction e g agent)))
    = malfunction (malfunction_data agent).
Proof.
  intros Hm. unfold _agent_malfunction.
  destruct (Qlt_bool 0 (malfunction_rate (malfunction_data agent))) eqn:Hr; simpl;
    rewrite ?Hr; simpl.
  - destruct (malfunction (malfunction_data agent) <=? 0) eqn:Hle; [lia|done].
  - done.
Qed.

Lemma commit_phase_frame e agent :
  target (commit_phase e agent) = target agent
  ∧ moving (commit_phase e agent) = moving agent
  ∧ malfunction_data (commit_phase e agent) = malfunction_data agent
  ∧ speed (speed_data (commit_phase e agent)) = speed (speed_data agent).
Proof. unfold commit_phase. phase_cases. Qed.

Lemma broken_phase_idle agent reward action :
  malfunction (malfunction_data agent) <= 0 →
  broken_phase agent reward action = Go (agent, reward, action).
Proof.
  intros Hm. unfold broken_phase.
  destruct (0 <? malfunction (malfunction_data agent)) eqn:H0; [lia|done].
Qed.

(** Without an active malfunction the movement logic leaves the malfunction
    record alone. *)
Lemma movement_malfunction_data e agent reward submitted :
  malfunction (malfunction_data agent) <= 0 →
  malfunction_data (fst (fst (movement e agent reward submitted)))
  = malfunction_data agent.
Proof.
  intros Hm. unfold movement, pre_commit. rewrite broken_phase_idle by done.
  pose proof (normalize_phase_place agent reward (sanitize_action submitted)) as Hn.
  destruct (normalize_phase agent reward (sanitize_action submitted)) as [[a2 r2] act2].
  simpl in Hn. destruct Hn as (_ & _ & _ & _ & Hmd2).
  pose proof (boundary_phase_place e a2 r2 act2) as Hy.
  destruct (boundary_phase e a2 r2 act2) as [a3 r3|[[a3 r3] sel]]; simpl.
  { destruct Hy as (_ & _ & _ & -> & _). done. }
  destruct Hy as (_ & _ & _ & Hmd3 & _).
  pose proof (arrival_phase_place (commit_phase e (advance_phase a3 sel)) false r3) as Ha.
  simpl in Ha. destruct Ha as (_ & _ & _ & _ & ->).
  destruct (commit_phase_frame e (advance_phase a3 sel)) as (_ & _ & -> & _).
  destruct (advance_phase_place a3 sel) as (_ & _ & _ & _ & -> & _).
  congruence.
Qed.

Lemma movement_last_malfunction_step e agent reward submitted :
  malfunction (malfunction_data agent) = 1 →
  movement e agent reward submitted = movement e (repaired agent) reward MOVE_FORWARD.
Proof.
  intros Hm. unfold movement, pre_commit, broken_phase, repaired. simpl.
  rewrite Hm. simpl. done.
Qed.

(** C2 (amended). For an agent that is not done and whose malfunction
    countdown [m] is positive when its iteration starts, the iteration draws
    no random number and:
    - when [m >= 2], the countdown becomes [m - 1], the agent is not moving,
      its position, direction and speed data (progress fraction) are
      untouched, its done flag stays false and its reward is increased by
      [step_penalty * speed];
    - when [m = 1], the countdown becomes 0, the submitted action is
      discarded (replaced by DO_NOTHING), the moving flag is set, and the
      movement logic runs in this same tick exactly as for the repaired,
      moving agent submitting MOVE_FORWARD. *)
Theorem malfunction_tick (action_dict : gmap nat Z) (i : nat) (e : RailEnv)
    (agent : EnvAgent) :
  default false (dones e !! i) = false →
  0 < malfunction (malfunction_data agent) →
  let m := malfunction (malfunction_data agent) in
  let reward := default 0%Q (rewards_dict e !! i) in
  let agent1 := fst (_agent_malfunction e (np_random e) (set_old agent)) in
  let '(agent', done', reward', g') := process_agent action_dict i e agent in
  g' = np_random e
  ∧ (2 <= m →
      malfunction (malfunction_data agent') = m - 1
      ∧ moving agent' = false
      ∧ position agent' = position agent
      ∧ direction agent' = direction agent
      ∧ speed_data agent' = speed_data agent
      ∧ done' = false
      ∧ reward' = (reward + step_penalty * speed (speed_data agent))%Q)
  ∧ (m = 1 →
      malfunction (malfunction_data agent') = 0
      ∧ (agent', done', reward') = movement e (repaired agent1) reward MOVE_FORWARD
      ∧ moving (repaired agent1) = true
      ∧ process_agent action_dict i e agent
        = process_agent (<[i := DO_NOTHING]> action_dict) i e agent).
Proof.
  intros Hdone Hm. simpl. unfold process_agent. rewrite Hdone.
  destruct (agent_malfunction_active e (np_random e) (set_old agent) Hm) as [Hg Hm1].
  pose proof (agent_malfunction_frame e (np_random e) (set_old agent)) as Hf.
  destruct (_agent_malfunction e (np_random e) (set_old agent)) as [a1 g1].
  simpl in *. subst g1. destruct Hf as (Hp & Hd & Ht & Hmv & Hsd).
  destruct (movement e a1 (default 0%Q (rewards_dict e !! i))
              (default DO_NOTHING (action_dict !! i))) as [[a' d'] r'] eqn:Hmove.
  split; [done|]. split.
  - intros H2. unfold movement, pre_commit, broken_phase in Hmove.
    destruct (0 <? malfunction (malfunction_data a1)) eqn:H0; [|lia].
    destruct (malfunction (malfunction_data a1) <? 2) eqn:H1; [lia|].
    simplify_eq /=. by rewrite Hm1, Hsd.
  - intros H1. rewrite movement_last_malfunction_step in Hmove by lia.
    split; [|split; [done|split; [done|]]].
    + change a' with (fst (fst (a', d', r'))). rewrite <- Hmove.
      rewrite movement_malfunction_data; unfold repaired; simpl; lia.
    + rewrite (movement_last_malfunction_step e a1) by lia. by rewrite Hmove.
Qed.

(** C2, as stated, fails: on the tick that clears the countdown (here 1)
    the agent already moves, from (3,1) to (3,2). *)
Lemma last_malfunction_step_moves :
  ∃ agent agent',
    agents (one_agent_env 1) !! 0%nat = Some agent
    ∧ agents (fst (step ∅ (one_agent_env 1))) !! 0%nat = Some agent'
    ∧ malfunction (malfunction_data agent) = 1
    ∧ malfunction (malfunction_data agent') = 0
    ∧ position agent = (3, 1)
    ∧ position agent' = (3, 2).
Proof. do 2 eexists. repeat split; vm_compute; reflexivity. Qed.

(** ** Arrival and reward accounting *)

Lemma pre_commit_reward e agent reward submitted agent' reward' :
  pre_commit e agent reward submitted = Go (agent', reward') → (reward' == reward)%Q.
Proof.
  unfold pre_commit, broken_phase, normalize_phase, boundary_phase, reject,
    stop_penalty, start_penalty.
  intros H. repeat (case_match; simplify_eq /=);
    rewrite ?Qplus_0_r; reflexivity.
Qed.

Lemma at_target_place agent agent' :
  position agent' = position agent → target agent' = target agent →
  at_target agent' = at_target agent.
Proof. unfold at_target. by intros -> ->. Qed.

(** What one iteration gives for an agent that ends it on its target. *)
Lemma process_agent_arrival action_dict k e agent d0 r0 :
  dones e !! k = Some d0 → rewards_dict e !! k = Some r0 → (r0 == 0)%Q →
  (at_target agent = true → d0 = true ∧ moving agent = false) →
  let '(agent', done', reward', _) := process_agent action_dict k e agent in
  at_target agent' = true → done' = true ∧ moving agent' = false ∧ (reward' == 0)%Q.
Proof.
  intros Hd Hr Hr0 Hset. unfold process_agent. rewrite Hd, Hr. simpl.
  pose proof (agent_malfunction_frame e (np_random e) (set_old agent)) as Hf.
  destruct (_agent_malfunction e (np_random e) (set_old agent)) as [a1 g1].
  simpl in Hf. destruct Hf as (Hp & _ & Ht & Hmv & _).
  assert (at_target a1 = at_target agent) as Hat by by apply at_target_place.
  destruct d0.
  { intros Ha. rewrite Hat in Ha. rewrite Hmv. destruct (Hset Ha). done. }
  assert (at_target a1 = false) as Hnot.
  { rewrite Hat. destruct (at_target agent); [|done]. by destruct Hset. }
  unfold movement.
  pose proof (pre_commit_place e a1 r0 (default DO_NOTHING (action_dict !! k))) as Hpl.
  pose proof (pre_commit_reward e a1 r0 (default DO_NOTHING (action_dict !! k))) as Hrw.
  destruct (pre_commit e a1 r0 (default DO_NOTHING (action_dict !! k)))
    as [a2 r2|[a2 r2]].
  - destruct Hpl as (Hp2 & _ & Ht2). intros Ha.
    rewrite (at_target_place a1 a2) in Ha by done. congruence.
  - specialize (Hrw _ _ eq_refl). unfold arrival_phase.
    destruct (pos_eqb (position (commit_phase e a2)) (target (commit_phase e a2)))
      eqn:Harr; simpl.
    + intros _. split; [done|split; [done|]]. by rewrite Hrw.
    + unfold at_target. congruence.
Qed.

Lemma tick_inv_weaken k e : tick_inv k e → tick_inv (S k) e.
Proof.
  intros (Hs & Hl & Hr). split; [done|split; [done|]].
  intros i agent r Ha Hri [Hle|Hat]; eapply Hr; eauto. left. lia.
Qed.

(** The iteration of handle [k] takes the invariant from [k] to [k + 1]. *)
Lemma step_agent_tick_inv action_dict k e :
  tick_inv k e → tick_inv (S k) (step_agent action_dict k e).
Proof.
  intros Hinv. destruct (agents e !! k) as [agent|] eqn:Hk.
  2:{ unfold step_agent. rewrite Hk. by apply tick_inv_weaken. }
  destruct Hinv as ((Hld & Hset) & Hlr & Hrew).
  assert (k < length (agents e))%nat as Hlt by by eapply lookup_lt_Some.
  destruct (lookup_lt_is_Some_2 (dones e) k) as [d0 Hd]; [lia|].
  destruct (lookup_lt_is_Some_2 (rewards_dict e) k) as [r0 Hr]; [lia|].
  pose proof (process_agent_arrival action_dict k e agent d0 r0 Hd Hr) as Harr.
  unfold step_agent. rewrite Hk.
  destruct (process_agent action_dict k e agent) as [[[a' d'] r'] g'].
  specialize (Harr ltac:(eapply Hrew; eauto)).
  specialize (Harr ltac:(intros Hat; destruct (Hset k agent Hk Hat); split; congruence)).
  split; [split|split]; simpl.
  - by rewrite !length_insert.
  - intros i agent_i Hi Hat. destruct (decide (i = k)) as [->|Hne].
    + rewrite list_lookup_insert_eq in Hi by done. injection Hi as <-.
      rewrite list_lookup_insert_eq by lia.
      destruct (Harr Hat) as (-> & ? & _). done.
    + rewrite list_lookup_insert_ne in Hi by done.
      rewrite list_lookup_insert_ne by done. eauto.
  - by rewrite !length_insert.
  - intros i agent_i r Hi Hri Hcond. destruct (decide (i = k)) as [->|Hne].
    + rewrite list_lookup_insert_eq in Hi by done. injection Hi as <-.
      rewrite list_lookup_insert_eq in Hri by lia. injection Hri as <-.
      destruct Hcond as [Hle|Hat]; [lia|]. by destruct (Harr Hat) as (_ & _ & ?).
    + rewrite list_lookup_insert_ne in Hi by done.
      rewrite list_lookup_insert_ne in Hri by done.
      eapply Hrew; eauto. destruct Hcond; [left; lia|by right].
Qed.

Lemma step_agent_length action_dict k e :
  length (agents (step_agent action_dict k e)) = length (agents e).
Proof.
  unfold step_agent. destruct (agents e !! k); [|done].
  destruct (process_agent _ _ _ _) as [[[a d] r] g]. simpl. apply length_insert.
Qed.

Lemma step_agent_dones_all action_dict k e :
  dones_all (step_agent action_dict k e) = dones_all e.
Proof.
  unfold step_agent. destruct (agents e !! k); [|done].
  by destruct (process_agent _ _ _ _) as [[[a d] r] g].
Qed.

Lemma agent_loop_tick_inv action_dict m k e :
  tick_inv k e →
  tick_inv (k + m) (agent_loop action_dict (seq k m) e)
  ∧ length (agents (agent_loop action_dict (seq k m) e)) = length (agents e)
  ∧ dones_all (agent_loop action_dict (seq k m) e) = dones_all e.
Proof.
  revert k e. induction m as [|m IH]; intros k e Hinv; simpl.
  - by rewrite Nat.add_0_r.
  - destruct (IH (S k) (step_agent action_dict k e)) as (H1 & H2 & H3).
    { by apply step_agent_tick_inv. }
    rewrite step_agent_length in H2. rewrite step_agent_dones_all in H3.
    replace (k + S m)%nat with (S k + m)%nat by lia. done.
Qed.

Lemma settled_set_rewards r e : settled (set_rewards r e) ↔ settled e.
Proof. done. Qed.

Lemma tick_inv_start e :
  settled e →
  tick_inv 0 (set_rewards (replicate (length (agents e)) 0%Q)
                (set_elapsed_steps (elapsed_steps e + 1) e)).
Proof.
  intros Hs. split; [done|split]; simpl.
  - by rewrite length_replicate.
  - intros i agent r _ Hr _. apply lookup_replicate in Hr as [-> _]. reflexivity.
Qed.

Lemma forallb_at_target_lookup (l : list EnvAgent) i agent :
  forallb at_target l = true → l !! i = Some agent → at_target agent = true.
Proof.
  intros Hall Hi. rewrite forallb_forall in Hall.
  apply Hall, list_elem_of_In, list_elem_of_lookup. eauto.
Qed.

(** C3 (amended). Take a tick that starts in a state where every agent
    that stands on its target is already marked done and not moving (this
    holds again after the tick, so it holds at every tick of an episode in
    which no agent starts on its target).  After the tick:
    - every agent whose position equals its target is marked done, is not
      moving, and its reward of the tick is the global bonus when the
      episode is complete (all agents on target, or [__all__] already set)
      and 0 otherwise: no step penalty;
    - if every agent is on its target, [__all__] is set and every reward of
      the tick is the global bonus. *)
Theorem arrival_and_rewards (action_dict : gmap nat Z) (e : RailEnv) :
  settled e →
  let e' := fst (step action_dict e) in
  settled e'
  ∧ (∀ i agent', agents e' !! i = Some agent' → at_target agent' = true →
       dones e' !! i = Some true ∧ moving agent' = false
       ∧ ∃ r, rewards_dict e' !! i = Some r
              ∧ (r == if dones_all e || forallb at_target (agents e')
                      then global_reward else 0)%Q)
  ∧ (forallb at_target (agents e') = true →
       dones_all e' = true
       ∧ ∀ i r, rewards_dict e' !! i = Some r → (r == global_reward)%Q).
Proof.
  intros Hs. unfold step. simpl. destruct (dones_all e) eqn:Hall; simpl.
  { unfold get_num_agents. simpl. rewrite map_replicate.
    split; [done|split].
    - intros i agent' Hi Hat. destruct Hs as [Hl Hset].
      destruct (Hset i agent' Hi Hat) as [Hd Hm]. split; [done|split; [done|]].
      exists (0 + global_reward)%Q. split; [|reflexivity].
      apply lookup_replicate. split; [done|]. by eapply lookup_lt_Some.
    - intros _. split; [done|]. intros i r Hr.
      apply lookup_replicate in Hr as [-> _]. reflexivity. }
  unfold get_num_agents. simpl.
  destruct (agent_loop_tick_inv action_dict (length (agents e)) 0
              (set_rewards (replicate (length (agents e)) 0%Q)
                 (set_elapsed_steps (elapsed_steps e + 1) e)))
    as (Hinv & Hlen & Hda); [by apply tick_inv_start|].
  simpl in Hinv, Hlen, Hda.
  set (e1 := agent_loop action_dict (seq 0 (length (agents e))) _) in *.
  destruct Hinv as ((Hld & Hset) & Hlr & Hrew).
  assert (settled (end_of_episode e1)) as Hs2.
  { unfold end_of_episode. by destruct (forallb at_target (agents e1)). }
  assert (settled (episode_limit (end_of_episode e1))) as Hs3.
  { unfold episode_limit. destruct (max_episode_steps _) as [m|]; [|done].
    destruct (m <=? _); [|done]. destruct Hs2 as [Hl2 Hset2].
    split; simpl; [by rewrite length_map|].
    intros i agent Hi Hat. destruct (Hset2 i agent Hi Hat) as [Hd Hm].
    split; [|done]. rewrite list_lookup_fmap, Hd. done. }
  assert (rewards_dict (episode_limit (end_of_episode e1))
          = rewards_dict (end_of_episode e1)) as Hrl.
  { unfold episode_limit. phase_cases. }
  split; [done|split].
  - intros i agent' Hi Hat. destruct Hs3 as [_ Hset3].
    destruct (Hset3 i agent' Hi Hat) as [Hd Hm]. split; [done|split; [done|]].
    rewrite Hrl. rewrite episode_limit_agents, end_of_episode_agents in Hi |- *.
    assert (i < length (agents e1))%nat as Hlt by by eapply lookup_lt_Some.
    destruct (lookup_lt_is_Some_2 (rewards_dict e1) i) as [r Hr]; [lia|].
    unfold end_of_episode. destruct (forallb at_target (agents e1)); simpl.
    + exists (0 * r + global_reward)%Q. rewrite list_lookup_fmap, Hr.
      split; [done|]. rewrite Qmult_0_l, Qplus_0_l. reflexivity.
    + exists r. split; [done|]. eapply Hrew; eauto.
  - rewrite episode_limit_agents, end_of_episode_agents, Hrl. intros Hallt.
    unfold episode_limit, end_of_episode. rewrite Hallt. simpl.
    split; [phase_cases|].
    intros i r Hr. apply list_lookup_fmap_Some in Hr as (r1 & -> & _).
    rewrite Qmult_0_l, Qplus_0_l. reflexivity.
Qed.

(** C3, as stated, fails: an agent that stands on its target without
    being marked done, in a malfunction that has two ticks left, ends the
    tick on its target, charged with the step penalty and still not done. *)
Lemma broken_agent_on_target_is_charged :
  ∃ agent' r,
    agents (fst (step ∅ (resting_agent_env 2))) !! 0%nat = Some agent'
    ∧ at_target agent' = true
    ∧ dones (fst (step ∅ (resting_agent_env 2))) !! 0%nat = Some false
    ∧ dones_all (fst (step ∅ (resting_agent_env 2))) = false
    ∧ rewards_dict (fst (step ∅ (resting_agent_env 2))) !! 0%nat = Some r
    ∧ (r == -1)%Q.
Proof. do 2 eexists. repeat split; vm_compute; reflexivity. Qed.

(** ** Single-exit forcing *)

Lemma land_1_cases x : Z.land x 1 = 0 ∨ Z.land x 1 = 1.
Proof.
  assert (Z.land x 1 = x mod 2) as ->.
  { change 1 with (Z.ones 1). by rewrite Z.land_ones by lia. }
  assert (0 <= x mod 2 < 2) by (apply Z.mod_pos_bound; lia).
  lia.
Qed.

(** With one legal exit, [np.argmax] of the four bits is that exit. *)
Lemma single_exit_argmax code orientation d :
  count_nonzero (get_transitions_of_code code orientation) = 1 →
  0 <= d < 4 →
  get_transition_of_code code orientation d ≠ 0 →
  argmax (get_transitions_of_code code orientation) = d.
Proof.
  unfold get_transitions_of_code, get_transition_of_code, count_nonzero.
  change (4 - 1 - orientation) with (3 - orientation).
  set (bits := Z.shiftr code ((3 - orientation) * 4)).
  intros Hcount Hd Hbit.
  assert (d = 0 ∨ d = 1 ∨ d = 2 ∨ d = 3) as Hcases by lia.
  rewrite <- (Z.shiftr_0_r bits) at 4.
  rewrite <- (Z.shiftr_0_r bits) in Hcount at 4.
  destruct (land_1_cases (Z.shiftr bits 3)) as [H3|H3];
  destruct (land_1_cases (Z.shiftr bits 2)) as [H2|H2];
  destruct (land_1_cases (Z.shiftr bits 1)) as [H1|H1];
  destruct (land_1_cases (Z.shiftr bits 0)) as [H0|H0];
  rewrite H3, H2, H1, H0 in *; try (vm_compute in Hcount; discriminate).
  all: destruct Hcases as [-> | [-> | [-> | ->]]]; simpl in Hbit.
  all: rewrite ?H3, ?H2, ?H1, ?H0 in Hbit; try done.
Qed.

Section SingleExit.
Variables (e : RailEnv) (agent : EnvAgent).
Hypothesis single_exit :
  count_nonzero (get_transitions (rail e) (fst (position agent)) (snd (position agent))
                   (direction agent)) = 1.

Lemma check_action_forward_single :
  check_action e agent MOVE_FORWARD
  = (argmax (get_transitions (rail e) (fst (position agent)) (snd (position agent))
               (direction agent)), Some true).
Proof. unfold check_action. rewrite single_exit. done. Qed.

Lemma check_turn_single action :
  action = MOVE_LEFT ∨ action = MOVE_RIGHT →
  check_ok (_check_action_on_agent e action agent) = false.
Proof.
  intros Hturn. unfold check_ok, _check_action_on_agent, check_action.
  rewrite single_exit. destruct Hturn as [-> | ->]; simpl; apply andb_false_r.
Qed.

(** At the cell entry the three moves are resolved alike, for an agent at
    the same place that is moving (as every agent is once a move has been
    submitted). *)
Lemma boundary_phase_single agent1 reward action :
  position agent1 = position agent → direction agent1 = direction agent →
  moving agent1 = true →
  action = MOVE_LEFT ∨ action = MOVE_FORWARD ∨ action = MOVE_RIGHT →
  boundary_phase e agent1 reward action = boundary_phase e agent1 reward MOVE_FORWARD.
Proof.
  intros Hp Hd Hm Hact.
  destruct Hact as [-> | [-> | ->]]; [|done|]; unfold boundary_phase;
    rewrite (check_action_on_agent_place e _ agent agent1) by done;
    rewrite check_turn_single by auto; rewrite Hm; simpl;
    destruct (Qle_bool _ epsilon); try done;
    by destruct (check_ok (_check_action_on_agent e MOVE_FORWARD agent1)).
Qed.

Lemma normalize_phase_move agent1 reward action :
  action = MOVE_LEFT ∨ action = MOVE_FORWARD ∨ action = MOVE_RIGHT →
  normalize_phase agent1 reward action
  = (if moving agent1 then agent1 else set_moving true agent1,
     if moving agent1 then reward else (reward + start_penalty)%Q,
     action).
Proof.
  intros Hact. unfold normalize_phase.
  destruct Hact as [-> | [-> | ->]]; simpl; by destruct (moving agent1).
Qed.

Lemma movement_single agent1 reward action :
  position agent1 = position agent → direction agent1 = direction agent →
  action = MOVE_LEFT ∨ action = MOVE_FORWARD ∨ action = MOVE_RIGHT →
  movement e agent1 reward action = movement e agent1 reward MOVE_FORWARD.
Proof.
  intros Hp Hd Hact. unfold movement, pre_commit.
  pose proof (broken_phase_place agent1 reward action) as Hpl.
  assert (broken_phase agent1 reward action = broken_phase agent1 reward MOVE_FORWARD
          ∨ (broken_phase agent1 reward action = Go (agent1, reward, action)
             ∧ broken_phase agent1 reward MOVE_FORWARD
               = Go (agent1, reward, MOVE_FORWARD))) as [-> | [-> ->]]; [|done|].
  { unfold broken_phase. phase_cases; auto. }
  assert (sanitize_action action = action) as ->
    by by destruct Hact as [-> | [-> | ->]].
  change (sanitize_action MOVE_FORWARD) with MOVE_FORWARD.
  rewrite !normalize_phase_move by auto.
  pose proof (boundary_phase_single
    (if moving agent1 then agent1 else set_moving true agent1)
    (if moving agent1 then reward else (reward + start_penalty)%Q) action) as Hb.
  simpl. rewrite Hb; [done| | | |done]; by destruct (moving agent1) eqn:?.
Qed.

Lemma process_agent_single action_dict i action :
  action = MOVE_LEFT ∨ action = MOVE_FORWARD ∨ action = MOVE_RIGHT →
  process_agent (<[i := action]> action_dict) i e agent
  = process_agent (<[i := MOVE_FORWARD]> action_dict) i e agent.
Proof.
  intros Hact. unfold process_agent.
  pose proof (agent_malfunction_frame e (np_random e) (set_old agent)) as Hf.
  destruct (_agent_malfunction e (np_random e) (set_old agent)) as [a1 g1].
  simpl in Hf. destruct Hf as (Hp & Hd & _).
  rewrite !lookup_insert_eq. simpl.
  destruct (default false (dones e !! i)); [done|].
  by rewrite movement_single.
Qed.

End SingleExit.

Lemma step_agent_single action_dict i e agent action :
  agents e !! i = Some agent →
  count_nonzero (get_transitions (rail e) (fst (position agent)) (snd (position agent))
                   (direction agent)) = 1 →
  action = MOVE_LEFT ∨ action = MOVE_FORWARD ∨ action = MOVE_RIGHT →
  step_agent (<[i := action]> action_dict) i e
  = step_agent (<[i := MOVE_FORWARD]> action_dict) i e.
Proof.
  intros Hi Hone Hact. unfold step_agent. rewrite Hi.
  by rewrite (process_agent_single e agent Hone).
Qed.

(** The iteration of a handle only reads its own entry of [action_dict]. *)
Lemma step_agent_other_action action_dict i j e a b :
  i ≠ j →
  step_agent (<[i := a]> action_dict) j e = step_agent (<[i := b]> action_dict) j e.
Proof.
  intros Hne. unfold step_agent, process_agent.
  by rewrite !lookup_insert_ne by done.
Qed.

Lemma agent_loop_other_action action_dict i handles e a b :
  i ∉ handles →
  agent_loop (<[i := a]> action_dict) handles e
  = agent_loop (<[i := b]> action_dict) handles e.
Proof.
  revert e. induction handles as [|j handles IH]; intros e Hnot; [done|].
  apply not_elem_of_cons in Hnot as [Hne Hnot]. simpl.
  rewrite (step_agent_other_action _ i j e a b) by done. by apply IH.
Qed.

Lemma step_agent_lookup_ne action_dict i j e :
  i ≠ j → agents (step_agent action_dict j e) !! i = agents e !! i.
Proof.
  intros Hne. unfold step_agent. destruct (agents e !! j); [|done].
  destruct (process_agent _ _ _ _) as [[[a d] r] g]. simpl.
  by rewrite list_lookup_insert_ne.
Qed.

Lemma step_agent_rail action_dict j e : rail (step_agent action_dict j e) = rail e.
Proof.
  unfold step_agent. destruct (agents e !! j); [|done].
  by destruct (process_agent _ _ _ _) as [[[a d] r] g].
Qed.

Lemma agent_loop_single action_dict i handles e agent action :
  NoDup handles →
  agents e !! i = Some agent →
  count_nonzero (get_transitions (rail e) (fst (position agent)) (snd (position agent))
                   (direction agent)) = 1 →
  action = MOVE_LEFT ∨ action = MOVE_FORWARD ∨ action = MOVE_RIGHT →
  agent_loop (<[i := action]> action_dict) handles e
  = agent_loop (<[i := MOVE_FORWARD]> action_dict) handles e.
Proof.
  intros Hnd. revert e. induction Hnd as [|j handles Hj Hnd IH];
    intros e Hi Hone Hact; [done|]. simpl.
  destruct (decide (i = j)) as [<-|Hne].
  - rewrite (step_agent_single _ _ _ agent action) by done.
    by apply agent_loop_other_action.
  - rewrite (step_agent_other_action _ i j e action MOVE_FORWARD) by done.
    apply IH; [|by rewrite step_agent_rail|done].
    by rewrite step_agent_lookup_ne.
Qed.

(** C4. For an agent whose cell and heading have exactly one legal exit,
    submitting MOVE_LEFT, MOVE_FORWARD or MOVE_RIGHT gives the same tick:
    the iteration of the agent and the whole [step] are those of
    MOVE_FORWARD, whether the agent is moving or stopped.  MOVE_FORWARD
    resolves to the single exit: the transition is valid, the new direction
    is the direction [d] of the legal exit and the destination is the
    neighbour in direction [d]; and whenever the cell-entry test accepts one
    of the three moves, the action stored for the cell exit is
    MOVE_FORWARD. *)
Theorem single_exit_forcing (action_dict : gmap nat Z) (i : nat) (e : RailEnv)
    (agent : EnvAgent) (action : Z) :
  agents e !! i = Some agent →
  count_nonzero (get_transitions (rail e) (fst (position agent)) (snd (position agent))
                   (direction agent)) = 1 →
  action = MOVE_LEFT ∨ action = MOVE_FORWARD ∨ action = MOVE_RIGHT →
  step_agent (<[i := action]> action_dict) i e
  = step_agent (<[i := MOVE_FORWARD]> action_dict) i e
  ∧ step (<[i := action]> action_dict) e = step (<[i := MOVE_FORWARD]> action_dict) e
  ∧ (let c := _check_action_on_agent e MOVE_FORWARD agent in
     transition_valid c = true
     ∧ ∀ d, 0 <= d < 4 →
         get_transition (rail e)
           (fst (position agent), snd (position agent), direction agent) d ≠ 0 →
         new_direction c = d ∧ new_position c = get_new_position (position agent) d)
  ∧ ∀ reward agent1 agent' reward' selected,
      position agent1 = position agent → direction agent1 = direction agent →
      boundary_phase e agent1 reward action = Go (agent', reward', selected) →
      selected = true →
      transition_action_on_cellexit (speed_data agent') = MOVE_FORWARD.
Proof.
  intros Hi Hone Hact. split; [by eapply step_agent_single|split; [|split]].
  - unfold step. simpl. destruct (dones_all e); [done|].
    unfold get_num_agents. simpl.
    rewrite (agent_loop_single _ i _ _ agent action); try done.
    apply NoDup_ListNoDup, List.seq_NoDup.
  - unfold _check_action_on_agent. rewrite check_action_forward_single by done.
    lazy beta iota zeta delta [transition_valid new_direction new_position].
    split; [done|]. intros d Hd Hbit.
    unfold get_transition in Hbit. unfold get_transitions in *.
    by rewrite (single_exit_argmax _ _ d).
  - intros reward agent1 agent' reward' selected Hp Hd Hgo ->.
    unfold boundary_phase in Hgo.
    destruct (Qle_bool _ epsilon); [|by simplify_eq].
    destruct Hact as [-> | [-> | ->]]; simpl in Hgo.
    2:{ repeat (case_match; simplify_eq /=); done. }
    all: rewrite (check_action_on_agent_place e _ agent agent1) in Hgo by done;
      rewrite check_turn_single in Hgo by auto;
      repeat (case_match; simplify_eq /=); done.
Qed.

(** ** Commit of the pending transition *)

Lemma commit_ok_false e action agent :
  let c := _check_action_on_agent e action agent in
  commit_ok c = false ↔
    in_grid e (new_position c) = false
    ∨ get_full_transitions (rail e) (fst (new_position c)) (snd (new_position c)) <= 0
    ∨ transition_valid c = false
    ∨ new_position c ∈ map position (agents e).
Proof.
  unfold commit_ok, _check_action_on_agent.
  destruct (check_action e agent action) as [nd tv]. simpl.
  set (np := get_new_position (position agent) nd).
  rewrite !andb_false_iff, negb_false_iff, Z.ltb_ge.
  assert (existsb (pos_eqb np) (map position (agents e)) = true
          ↔ np ∈ map position (agents e)) as ->.
  { rewrite existsb_exists. split.
    - intros (x & Hin & Heq). apply pos_eqb_eq in Heq as ->.
      by apply list_elem_of_In.
    - intros Hin. exists np. split; [by apply list_elem_of_In|by apply pos_eqb_eq]. }
  tauto.
Qed.

Lemma commit_phase_ok e agent :
  (1 <= position_fraction (speed_data agent))%Q →
  let c := _check_action_on_agent e
             (transition_action_on_cellexit (speed_data agent)) agent in
  commit_phase e agent
  = if commit_ok c
    then set_speed_data
           (set_position_fraction 0 (speed_data agent))
           (set_direction (new_direction c) (set_position (new_position c) agent))
    else agent.
Proof.
  intros Hge. unfold commit_phase, commit_ok.
  apply Qle_bool_iff in Hge. by rewrite Hge.
Qed.

(** An agent whose progress fraction is at least 1 when its iteration
    starts, and whose iteration is not ended by a malfunction, reaches the
    commit test again with the same pending action. *)
Lemma pre_commit_retry e agent reward submitted :
  malfunction (malfunction_data agent) < 2 →
  (0 <= speed (speed_data agent))%Q →
  (1 <= position_fraction (speed_data agent))%Q →
  ∃ agent1 reward1,
    pre_commit e agent reward submitted = Go (agent1, reward1)
    ∧ (1 <= position_fraction (speed_data agent1))%Q
    ∧ transition_action_on_cellexit (speed_data agent1)
      = transition_action_on_cellexit (speed_data agent)
    ∧ position agent1 = position agent ∧ direction agent1 = direction agent.
Proof.
  intros Hm Hs Hf. unfold pre_commit.
  pose proof (broken_phase_place agent reward submitted) as Hb.
  destruct (broken_phase agent reward submitted) as [a1 r1|[[a1 r1] act1]] eqn:Hbr.
  { unfold broken_phase in Hbr. repeat (case_match; simplify_eq /=). lia. }
  destruct Hb as (Hp1 & Hd1 & _ & Hsd1).
  pose proof (normalize_phase_place a1 r1 (sanitize_action act1)) as Hn.
  destruct (normalize_phase a1 r1 (sanitize_action act1)) as [[a2 r2] act2].
  simpl in Hn. destruct Hn as (Hp2 & Hd2 & _ & Hsd2 & _).
  assert (Qle_bool (position_fraction (speed_data a2)) epsilon = false) as Hnb.
  { destruct (Qle_bool _ epsilon) eqn:Hle; [|done].
    apply Qle_bool_iff in Hle. rewrite Hsd2, Hsd1 in Hle. unfold epsilon in Hle. lra. }
  unfold boundary_phase. rewrite Hnb.
  eexists _, _. split; [done|]. unfold advance_phase.
  rewrite Hsd2, Hsd1.
  destruct (moving a2 && _); simpl; rewrite ?Hsd2, ?Hsd1; repeat split;
    try congruence; lra.
Qed.

(** C5. When the iteration of an agent reaches the commit test with a
    progress fraction of at least 1: the test fails exactly when the
    destination is outside the grid, is an empty cell, the transition is not
    legal, or some agent currently occupies the destination; on failure the
    position and the direction of the agent are unchanged and its progress
    fraction is still at least 1; on success the agent takes the new
    position and direction and its progress fraction is 0.  An agent left
    with a fraction of at least 1 reaches the commit test again in its next
    iteration, with the same pending action, unless a malfunction ends that
    iteration. *)
Theorem commit_or_retry (e : RailEnv) (agent : EnvAgent) (reward : Q) (submitted : Z)
    (agent1 : EnvAgent) (reward1 : Q) :
  pre_commit e agent reward submitted = Go (agent1, reward1) →
  (1 <= position_fraction (speed_data agent1))%Q →
  let c := _check_action_on_agent e
             (transition_action_on_cellexit (speed_data agent1)) agent1 in
  let agent' := fst (fst (movement e agent reward submitted)) in
  (commit_ok c = false ↔
     in_grid e (new_position c) = false
     ∨ get_full_transitions (rail e) (fst (new_position c)) (snd (new_position c)) <= 0
     ∨ transition_valid c = false
     ∨ new_position c ∈ map position (agents e))
  ∧ (commit_ok c = false →
       position agent' = position agent ∧ direction agent' = direction agent
       ∧ (1 <= position_fraction (speed_data agent'))%Q)
  ∧ (commit_ok c = true →
       position agent' = new_position c ∧ direction agent' = new_direction c
       ∧ position_fraction (speed_data agent') = 0%Q)
  ∧ (∀ e2 reward2 submitted2,
       malfunction (malfunction_data agent') < 2 →
       (0 <= speed (speed_data agent'))%Q →
       (1 <= position_fraction (speed_data agent'))%Q →
       ∃ agent2 reward',
         pre_commit e2 agent' reward2 submitted2 = Go (agent2, reward')
         ∧ (1 <= position_fraction (speed_data agent2))%Q
         ∧ transition_action_on_cellexit (speed_data agent2)
           = transition_action_on_cellexit (speed_data agent')
         ∧ position agent2 = position agent' ∧ direction agent2 = direction agent').
Proof.
  intros Hgo Hge. simpl.
  pose proof (pre_commit_place e agent reward submitted) as Hpl.
  unfold movement. rewrite Hgo in Hpl |- *. destruct Hpl as (Hp & Hd & _).
  pose proof (arrival_phase_place (commit_phase e agent1) false reward1) as Ha.
  simpl in Ha. destruct Ha as (Hpa & Hda & _ & Hsa & _).
  split; [apply commit_ok_false|].
  split; [|split]; [| |intros e2 reward2 submitted2; apply pre_commit_retry].
  - rewrite Hpa, Hda, Hsa, (commit_phase_ok e agent1 Hge).
    intros ->. by rewrite Hp, Hd.
  - rewrite Hpa, Hda, Hsa, (commit_phase_ok e agent1 Hge). by intros ->.
Qed.

(** ** Out-of-range actions *)

(** Below 0 or above [len(RailEnvActions)] the action is replaced by
    DO_NOTHING. *)
Lemma out_of_range_action_downgraded e agent reward action :
  action < 0 ∨ RailEnvActions.len < action →
  sanitize_action action = DO_NOTHING
  ∧ movement e agent reward action = movement e agent reward DO_NOTHING.
Proof.
  intros Hout.
  assert (sanitize_action action = DO_NOTHING) as Hs.
  { unfold sanitize_action.
    destruct (action <? 0) eqn:H0; [done|].
    destruct (RailEnvActions.len <? action) eqn:H5; [done|]. lia. }
  split; [done|]. unfold movement, pre_commit, broken_phase.
  destruct (0 <? malfunction (malfunction_data agent));
    [destruct (malfunction (malfunction_data agent) <? 2)|]; try done.
  by rewrite Hs.
Qed.

(** C6 fails on the code at the action value 5: the range test is
    [action > len(RailEnvActions)], so 5 passes it; a stopped agent that
    submits 5 is started, has 5 stored as its pending action and moves from
    (3,1) to (3,2), whereas with DO_NOTHING it stays on (3,1). *)
Theorem action_5_is_not_downgraded :
  sanitize_action 5 = 5
  ∧ map position (agents (fst (step {[0%nat := 5]} (one_agent_env 0)))) = [(3, 2)]
  ∧ map (fun agent => transition_action_on_cellexit (speed_data agent))
        (agents (fst (step {[0%nat := 5]} (one_agent_env 0)))) = [5]
  ∧ map position (agents (fst (step {[0%nat := DO_NOTHING]} (one_agent_env 0))))
    = [(3, 1)].
Proof. repeat split; vm_compute; reflexivity. Qed.

(** * Properties of the generators *)

Section GeneratorProperties.
Context {L : RailLib}.

(** ** Bounded retries of the pairwise generator *)

Lemma sample_start_goal_cursor width height g :
  cursor (snd (sample_start_goal width height g)) = (cursor g + 4)%N.
Proof. unfold sample_start_goal, randint, next_raw. simpl. lia. Qed.

(** One run of [for _ in range(n)] makes at most [n] sampling attempts,
    four draws each. *)
Lemma sample_loop_cursor n accept width height g :
  (cursor g <= cursor (snd (sample_loop n accept width height g))
   <= cursor g + 4 * N.of_nat n)%N.
Proof.
  revert g. induction n as [|n IH]; intros g; [simpl; lia|].
  rewrite Nat2N.inj_succ. cbn [sample_loop].
  pose proof (sample_start_goal_cursor width height g) as Hc.
  destruct (sample_start_goal width height g) as [[start goal] g1]. simpl in Hc.
  destruct (accept start goal); simpl; [lia|].
  specialize (IH g1). lia.
Qed.

Lemma sample_loop_rejects n accept width height g :
  (∀ g', accept (fst (fst (sample_start_goal width height g')))
                (snd (fst (sample_start_goal width height g'))) = false) →
  fst (sample_loop n accept width height g) = None.
Proof.
  intros Hrej. revert g. induction n as [|n IH]; intros g; [done|].
  cbn [sample_loop]. pose proof (Hrej g) as Hg.
  destruct (sample_start_goal width height g) as [[start goal] g1]. simpl in Hg.
  rewrite Hg. apply IH.
Qed.

Lemma randint_range low high g :
  low < high → low <= fst (randint low high g) < high.
Proof.
  intros Hlt. unfold randint, next_raw. simpl.
  pose proof (Z.mod_pos_bound (raw g (cursor g)) (high - low)). lia.
Qed.

Lemma sample_start_goal_range width height g :
  0 < width → 0 < height →
  let '(start, goal, _) := sample_start_goal width height g in
  0 <= fst start < height ∧ 0 <= snd start < width
  ∧ 0 <= fst goal < height ∧ 0 <= snd goal < width.
Proof.
  intros Hw Hh. unfold sample_start_goal.
  repeat match goal with
  | |- context [randint ?lo ?hi ?g] =>
      let H := fresh "Hr" in
      pose proof (randint_range lo hi g ltac:(lia)) as H;
      destruct (randint lo hi g) as [? ?]; simpl in H
  end.
  simpl. lia.
Qed.

Lemma rail_at_empty_grid width height pos : rail_at (empty_grid width height) pos = 0.
Proof.
  unfold rail_at, get_full_transitions, empty_grid. simpl.
  destruct (replicate (Z.to_nat height) (replicate (Z.to_nat width) 0)
              !! Z.to_nat (fst pos)) as [row|] eqn:Hrow; simpl; [|done].
  apply lookup_replicate in Hrow as [-> _].
  destruct (replicate (Z.to_nat width) 0 !! Z.to_nat (snd pos)) as [v|] eqn:Hv;
    simpl; [|done].
  by apply lookup_replicate in Hv as [-> _].
Qed.

(** On a grid too small for [min_dist] every sample of the first loop is
    rejected. *)
Lemma accept_start_goal_too_far width height min_dist max_dist rail start_goal g :
  0 < width → 0 < height → (height - 1) + (width - 1) < min_dist →
  accept_start_goal min_dist max_dist rail start_goal
    (fst (fst (sample_start_goal width height g)))
    (snd (fst (sample_start_goal width height g))) = false.
Proof.
  intros Hw Hh Hfar.
  pose proof (sample_start_goal_range width height g Hw Hh) as Hr.
  destruct (sample_start_goal width height g) as [[start goal] g1]. simpl.
  unfold accept_start_goal.
  destruct (negb _ || negb _); [done|].
  assert ((distance_on_rail start goal <? min_dist) = true) as ->; [|done].
  apply Z.ltb_lt. unfold distance_on_rail. lia.
Qed.

Lemma accept_extra_empty width height start goal :
  accept_extra (empty_grid width height) start goal = false.
Proof. unfold accept_extra. by rewrite !rail_at_empty_grid. Qed.

(** One pass of the first loop keeps the invariant, draws at most
    [4 * 9000] numbers and, unless it breaks, uses up one unit of the
    measure. *)
Lemma pair_body_spec nr_start_goal width height min_dist max_dist s :
  pair_inv nr_start_goal s → pair_cond nr_start_goal s = true →
  match pair_body width height min_dist max_dist s with
  | inl s' =>
      pair_inv nr_start_goal s'
      ∧ (cursor (ps_rng s') <= cursor (ps_rng s) + 4 * 9000)%N
  | inr s' =>
      pair_inv nr_start_goal s'
      ∧ (cursor (ps_rng s') <= cursor (ps_rng s) + 4 * 9000)%N
      ∧ (pair_measure nr_start_goal s' < pair_measure nr_start_goal s)%nat
  end.
Proof.
  intros (Hn & Hc & Hl & Hd) Hcond. unfold pair_cond in Hcond.
  apply andb_true_iff in Hcond as [Hlt1 Hlt2].
  apply Z.ltb_lt in Hlt1, Hlt2. unfold pair_body.
  pose proof (sample_loop_cursor (Z.to_nat sanity_max)
    (accept_start_goal min_dist max_dist (ps_grid s) (ps_start_goal s))
    width height (ps_rng s)) as Hcur.
  destruct (sample_loop _ _ _ _ _) as [[[start goal]|] g]; simpl in Hcur.
  2:{ unfold pair_inv, sanity_max in *. simpl. split; [done|lia]. }
  destruct (connect_rail (ps_grid s) start goal) as [grid' new_path].
  unfold pair_inv, pair_measure, sanity_max in *.
  destruct (2 <=? Z.of_nat (length new_path)); simpl;
    rewrite ?length_app; simpl; (split; [|split]); lia.
Qed.

(** The first loop ends within [pair_measure] passes. *)
Lemma pair_loop_terminates fuel nr_start_goal width height min_dist max_dist s :
  pair_inv nr_start_goal s →
  (pair_measure nr_start_goal s <= fuel)%nat →
  ∃ s', pair_loop fuel nr_start_goal width height min_dist max_dist s = Some s'
        ∧ pair_inv nr_start_goal s'
        ∧ (cursor (ps_rng s')
           <= cursor (ps_rng s) + 4 * 9000 * N.of_nat (pair_measure nr_start_goal s))%N.
Proof.
  revert s. induction fuel as [|fuel IH]; intros s Hinv Hfuel.
  - simpl. destruct (pair_cond nr_start_goal s) eqn:Hcond.
    + unfold pair_cond in Hcond. apply andb_true_iff in Hcond as [H1 H2].
      apply Z.ltb_lt in H1, H2. unfold pair_measure in Hfuel. lia.
    + exists s. split; [done|split; [done|lia]].
  - simpl. destruct (pair_cond nr_start_goal s) eqn:Hcond.
    2:{ exists s. split; [done|split; [done|lia]]. }
    pose proof (pair_body_spec nr_start_goal width height min_dist max_dist s
                  Hinv Hcond) as Hbody.
    assert (1 <= pair_measure nr_start_goal s)%nat as Hpos.
    { unfold pair_cond in Hcond. apply andb_true_iff in Hcond as [H1 H2].
      apply Z.ltb_lt in H1, H2. unfold pair_measure. lia. }
    destruct (pair_body width height min_dist max_dist s) as [s'|s'].
    + destruct Hbody as [Hinv' Hcur]. exists s'. split; [done|split; [done|lia]].
    + destruct Hbody as (Hinv' & Hcur & Hdec).
      destruct (IH s' Hinv') as (s'' & Hloop & Hinv'' & Hcur''); [lia|].
      exists s''. split; [done|split; [done|lia]].
Qed.

Lemma pair_inv_initial nr_start_goal width height seed num_resets :
  pair_inv nr_start_goal (complex_initial width height seed num_resets).
Proof. unfold pair_inv, sanity_max. simpl. lia. Qed.

(** C8. The loop that places the start/goal pairs of the pairwise
    generator ends within [nr_start_goal + 9000] passes, whatever the draws
    and the path search give: each pass makes at most 9000 sampling
    attempts (four draws each), at most 9000 connections fail in all, and
    the loop leaves at most [nr_start_goal] pairs, one start direction per
    pair.  On a grid on which no two cells are [min_dist] apart the whole
    generator returns, with the empty grid and no pair; it also returns
    whenever no extra connection is requested. *)
Theorem pair_generation_terminates (nr_start_goal nr_extra min_dist max_dist seed : Z)
    (fuel : nat) (ambient : RandomState) (width height num_agents num_resets : Z) :
  (Z.to_nat nr_start_goal + Z.to_nat sanity_max <= fuel)%nat →
  (∀ accept g,
     Z.of_N (cursor (snd (sample_loop (Z.to_nat sanity_max) accept width height g)))
     <= Z.of_N (cursor g) + 4 * sanity_max)
  ∧ (∃ s,
     pair_loop fuel nr_start_goal width height min_dist max_dist
       (complex_initial width height seed num_resets) = Some s
     ∧ 0 <= ps_nr_created s <= Z.max 0 nr_start_goal
     ∧ 0 <= ps_created_sanity s <= sanity_max
     ∧ Z.of_nat (length (ps_start_goal s)) = ps_nr_created s
     ∧ length (ps_start_dir s) = length (ps_start_goal s)
     ∧ Z.of_N (cursor (ps_rng s))
       <= 4 * sanity_max * (Z.max 0 nr_start_goal + sanity_max)
     ∧ (nr_extra <= 0 →
        complex_rail_generator nr_start_goal nr_extra min_dist max_dist seed fuel
          ambient width height num_agents num_resets
        = Some (ps_grid s,
                {| start_goal := ps_start_goal s; start_dir := ps_start_dir s |},
                ps_rng s)))
  ∧ (0 < width → 0 < height → (height - 1) + (width - 1) < min_dist →
     ∃ g, complex_rail_generator nr_start_goal nr_extra min_dist max_dist seed fuel
            ambient width height num_agents num_resets
          = Some (empty_grid width height, {| start_goal := []; start_dir := [] |}, g)
          ∧ Z.of_N (cursor g) <= 2 * (4 * sanity_max)).
Proof.
  intros Hfuel. split; [|split].
  - intros accept g.
    pose proof (sample_loop_cursor (Z.to_nat sanity_max) accept width height g) as Hc.
    unfold sanity_max in *. lia.
  - destruct (pair_loop_terminates fuel nr_start_goal width height min_dist max_dist
                (complex_initial width height seed num_resets))
      as (s & Hloop & (Hn & Hc & Hl & Hd) & Hcur).
    { apply pair_inv_initial. }
    { unfold pair_measure, sanity_max, complex_initial in *.
      cbn [ps_nr_created ps_created_sanity]. lia. }
    exists s. repeat (split; [done|]). split.
    + unfold pair_measure, sanity_max, complex_initial in Hcur |- *.
      cbn [ps_nr_created ps_created_sanity ps_rng np_random_seed cursor] in Hcur.
      lia.
    + intros Hx. unfold complex_rail_generator. rewrite Hloop.
      destruct fuel; simpl; unfold extra_cond; simpl;
        by destruct (0 <? nr_extra) eqn:H0; [lia|].
  - intros Hw Hh Hfar. destruct fuel as [|fuel]; [unfold sanity_max in Hfuel; lia|].
    unfold complex_rail_generator.
    set (s0 := complex_initial width height seed num_resets).
    assert (∃ g1, pair_loop (S fuel) nr_start_goal width height min_dist max_dist s0
                  = Some (set_ps_rng g1 s0) ∧ (cursor g1 <= 4 * 9000)%N)
      as (g1 & -> & Hg1).
    { simpl. destruct (pair_cond nr_start_goal s0).
      2:{ exists (ps_rng s0). split; [done|]. cbn. lia. }
      unfold pair_body.
      pose proof (sample_loop_rejects (Z.to_nat sanity_max)
        (accept_start_goal min_dist max_dist (ps_grid s0) (ps_start_goal s0))
        width height (ps_rng s0)) as Hrej.
      pose proof (sample_loop_cursor (Z.to_nat sanity_max)
        (accept_start_goal min_dist max_dist (ps_grid s0) (ps_start_goal s0))
        width height (ps_rng s0)) as Hcur.
      destruct (sample_loop _ _ _ _ _) as [found g1]. simpl in Hrej, Hcur.
      rewrite Hrej; [|intros g'; by apply accept_start_goal_too_far].
      exists g1. split; [done|]. unfold sanity_max, s0, complex_initial in Hcur.
      cbn [ps_rng np_random_seed cursor] in Hcur. lia. }
    cbn [ps_grid ps_rng set_ps_rng ps_start_goal ps_start_dir s0 complex_initial].
    cbn [extra_loop]. destruct (extra_cond nr_extra _).
    2:{ eexists. split; [done|]. unfold sanity_max. cbn [cursor xs_rng]. lia. }
    unfold extra_body. cbn [xs_grid xs_rng xs_nr_created xs_created_sanity].
    pose proof (sample_loop_rejects (Z.to_nat sanity_max)
      (accept_extra (empty_grid width height)) width height g1) as Hrej.
    pose proof (sample_loop_cursor (Z.to_nat sanity_max)
      (accept_extra (empty_grid width height)) width height g1) as Hcur.
    destruct (sample_loop _ _ _ _ _) as [found g2]. simpl in Hrej, Hcur.
    rewrite Hrej; [|intros g'; by apply accept_extra_empty].
    eexists. split; [done|]. unfold sanity_max in *. cbn [cursor xs_rng]. lia.
Qed.

(** ** Reseeding *)

(** C7 (amended). The pairwise generator and the sparse generator reseed
    [np.random] from [seed + num_resets] before they draw: run with the same
    parameters and the same [(seed, num_resets, width, height, num_agents)],
    they give the same grid, the same hints and leave the same random state,
    whatever the state of [np.random] was before the call; and only the sum
    [seed + num_resets] matters. *)
Theorem seeded_generators_are_reproducible
    (nr_start_goal nr_extra min_dist max_dist seed : Z) (fuel : nat)
    (num_cities : Z) (grid_mode : bool) (max_inter_city_rails max_tracks_in_city : Z)
    (ambient1 ambient2 : RandomState) (width height num_agents num_resets : Z) :
  complex_rail_generator nr_start_goal nr_extra min_dist max_dist seed fuel ambient1
    width height num_agents num_resets
  = complex_rail_generator nr_start_goal nr_extra min_dist max_dist seed fuel ambient2
      width height num_agents num_resets
  ∧ sparse_rail_generator num_cities grid_mode max_inter_city_rails max_tracks_in_city
      seed ambient1 width height num_agents num_resets
    = sparse_rail_generator num_cities grid_mode max_inter_city_rails
        max_tracks_in_city seed ambient2 width height num_agents num_resets
  ∧ ∀ seed' num_resets',
      seed' + num_resets' = seed + num_resets →
      complex_rail_generator nr_start_goal nr_extra min_dist max_dist seed' fuel
        ambient2 width height num_agents num_resets'
      = complex_rail_generator nr_start_goal nr_extra min_dist max_dist seed fuel
          ambient1 width height num_agents num_resets
      ∧ sparse_rail_generator num_cities grid_mode max_inter_city_rails
          max_tracks_in_city seed' ambient2 width height num_agents num_resets'
        = sparse_rail_generator num_cities grid_mode max_inter_city_rails
            max_tracks_in_city seed ambient1 width height num_agents num_resets.
Proof.
  split; [done|split; [done|]]. intros seed' num_resets' Hsum.
  unfold complex_rail_generator, complex_initial, sparse_rail_generator.
  by rewrite Hsum.
Qed.

(** ** Failures of the sparse generator *)

Lemma place_city_ok remaining node_radius height width node_positions city_cells g :
  0 < height - 2 * (node_radius + 1) → 0 < width - 2 * (node_radius + 1) →
  ∃ positions cells g',
    place_city remaining node_radius height width node_positions city_cells g
    = Ok (positions, cells, g')
    ∧ (node_positions = [] → remaining ≠ 0%nat → positions ≠ [])
    ∧ (node_positions ≠ [] → positions ≠ [])
    ∧ (length positions <= S (length node_positions))%nat.
Proof.
  intros Hh Hw. revert g.
  induction remaining as [|remaining IH]; intros g; cbn [place_city].
  { eexists _, _, _. split; [done|]. split; [done|split; [auto|lia]]. }
  unfold randint_checked.
  destruct (0 <? height - 2 * (node_radius + 1)) eqn:H1; [|lia].
  destruct (0 <? width - 2 * (node_radius + 1)) eqn:H2; [|lia].
  cbn [mbind result_bind].
  destruct (randint 0 (height - 2 * (node_radius + 1)) g) as [x g1].
  destruct (randint 0 (width - 2 * (node_radius + 1)) g1) as [y g2].
  destruct (existsb _ node_positions) eqn:Hclose; cbn [negb].
  - destruct remaining as [|remaining'].
    + eexists _, _, _. split; [done|]. split; [|split; [done|lia]].
      intros ->. simpl in Hclose. done.
    + destruct (IH g2) as (ps & cs & g' & Hok & Hfirst & Hrest & Hlen).
      exists ps, cs, g'. split; [done|]. split; [|done].
      intros ->. simpl in Hclose. done.
  - eexists _, _, _. split; [done|].
    split; [|split]; [intros _ _ Hnil|intros _ Hnil|];
      [apply app_eq_nil in Hnil as [_ Hnil]; discriminate Hnil ..|].
    rewrite length_app. simpl. lia.
Qed.

Lemma place_cities_ok nb_nodes node_radius height width node_positions city_cells g :
  0 < height - 2 * (node_radius + 1) → 0 < width - 2 * (node_radius + 1) →
  ∃ positions cells g',
    place_cities nb_nodes node_radius height width node_positions city_cells g
    = Ok (positions, cells, g')
    ∧ (nb_nodes ≠ 0%nat ∨ node_positions ≠ [] → positions ≠ [])
    ∧ (length positions <= nb_nodes + length node_positions)%nat.
Proof.
  intros Hh Hw. revert node_positions city_cells g.
  induction nb_nodes as [|nb_nodes IH]; intros node_positions city_cells g;
    cbn [place_cities].
  { eexists _, _, _. split; [done|]. split; [|done]. intros [?|?]; done. }
  destruct (place_city_ok 201 node_radius height width node_positions city_cells g
              Hh Hw) as (ps & cs & g1 & -> & Hfirst & Hrest & Hlen).
  cbn [mbind result_bind].
  destruct (IH ps cs g1) as (ps' & cs' & g' & -> & Hne & Hlen').
  eexists _, _, _. split; [done|]. split; [|lia]. intros _. apply Hne. right.
  destruct node_positions; [by apply Hfirst|by apply Hrest].
Qed.

Lemma place_cities_too_small nb_nodes node_radius height width g :
  nb_nodes ≠ 0%nat →
  ¬ (0 < height - 2 * (node_radius + 1) ∧ 0 < width - 2 * (node_radius + 1)) →
  place_cities nb_nodes node_radius height width [] [] g = Raise ValueError.
Proof.
  intros Hnb Hsmall. destruct nb_nodes as [|nb_nodes]; [done|].
  cbn [place_cities place_city]. unfold randint_checked.
  destruct (0 <? height - 2 * (node_radius + 1)) eqn:H1; [|done].
  cbn [mbind result_bind].
  destruct (randint 0 (height - 2 * (node_radius + 1)) g) as [x g1].
  destruct (0 <? width - 2 * (node_radius + 1)) eqn:H2; [lia|done].
Qed.

(** C9 fails on the code for the sparse generator with random placement of
    the cities.  On a grid on which no city fits, [height] or [width] at
    most [2 * (node_radius + 1)], the draw of the first city position,
    [np.random.randint] of a bound that is not positive, raises
    [ValueError] to the caller: no warning, no partial network.  On a
    larger grid the placement of the cities does not raise: when the 201
    tries of a city are used up the loop goes on with the cities placed so
    far, and it returns at least one and at most [num_cities] cities. *)
Theorem sparse_generator_raises (num_cities : Z)
    (max_inter_city_rails max_tracks_in_city seed : Z) (ambient : RandomState)
    (width height num_agents num_resets : Z) :
  1 <= num_cities →
  let node_radius := (max_tracks_in_city + 2 + 1) / 2 + 1 in
  let fits := 0 < height - 2 * (node_radius + 1) ∧ 0 < width - 2 * (node_radius + 1) in
  (¬ fits →
   sparse_rail_generator num_cities false max_inter_city_rails max_tracks_in_city
     seed ambient width height num_agents num_resets = Raise ValueError)
  ∧ (fits →
     ∃ node_positions city_cells g,
       _generate_random_node_positions num_cities node_radius height width
         (np_random_seed (seed + num_resets))
       = Ok (node_positions, city_cells, g)
       ∧ node_positions ≠ []
       ∧ Z.of_nat (length node_positions) <= num_cities).
Proof.
  intros Hn node_radius fits.
  assert (Z.to_nat num_cities ≠ 0%nat) as Hnb by lia. split.
  - intros Hsmall. unfold sparse_rail_generator. fold node_radius.
    unfold _generate_random_node_positions.
    by rewrite place_cities_too_small.
  - intros [Hh Hw]. unfold _generate_random_node_positions.
    destruct (place_cities_ok (Z.to_nat num_cities) node_radius height width [] []
                (np_random_seed (seed + num_resets)) Hh Hw)
      as (ps & cs & g' & Hok & Hne & Hlen).
    exists ps, cs, g'. split; [done|]. split; [auto|]. simpl in Hlen. lia.
Qed.

End GeneratorProperties.

(** C7, as stated, fails for the template-fill generator: it never
    reseeds, so two runs with the same [(width, height, num_agents,
    num_resets)] started in two states of [np.random] give two grids. *)
Lemma template_fill_depends_on_ambient_state :
  template_fill_3x3 ambient_zero = {| grid := [[0; 0; 0]; [0; 0; 0]; [0; 0; 0]] |}
  ∧ template_fill_3x3 ambient_half
    = {| grid := [[0; 8192; 0]; [4; 33825; 256]; [0; 128; 0]] |}
  ∧ template_fill_3x3 ambient_zero ≠ template_fill_3x3 ambient_half.
Proof. split; [|split]; vm_compute; [reflexivity|reflexivity|discriminate]. Qed.

(** * The theorems at concrete inputs *)

(** The scenario of the specification: a straight track, one agent of speed
    1 two cells from its target, two ticks of MOVE_FORWARD; the agent is
    done on the second tick and its reward is the global bonus. *)
Example two_ticks_to_target :
  let e1 := fst (step {[0%nat := MOVE_FORWARD]} (one_agent_env 0)) in
  let e2 := fst (step {[0%nat := MOVE_FORWARD]} e1) in
  map position (agents e1) = [(3, 2)] ∧ dones e1 = [false] ∧ dones_all e1 = false
  ∧ map position (agents e2) = [(3, 3)] ∧ dones e2 = [true] ∧ dones_all e2 = true
  ∧ rewards_dict e2 = [global_reward].
Proof. repeat split; vm_compute; reflexivity. Qed.

(** Two agents heading for the same cell in one tick: the lower handle
    takes it, the other one keeps its cell with a progress fraction of 1. *)
Example lower_handle_takes_the_cell :
  let e1 := fst (step both_forward facing_agents_env) in
  map position (agents e1) = [(3, 2); (3, 3)]
  ∧ map (fun agent => position_fraction (speed_data agent)) (agents e1) = [0%Q; 1%Q].
Proof. split; vm_compute; reflexivity. Qed.

(** The modelled rotation is closed: a quarter turn followed by three
    quarter turns gives the code back, and so do four quarter turns. *)
Example rotation_closure :
  Forall (fun c =>
    rotate_transition_model (rotate_transition_model c 90) 270 = c
    ∧ rotate_transition_model
        (rotate_transition_model
           (rotate_transition_model (rotate_transition_model c 90) 90) 90) 90 = c)
    [0; 33825; 8192; 1025; 4; 128; 256].
Proof. repeat constructor; vm_compute; reflexivity. Qed.

(** The template-fill generator on a grid without interior cells: every
    attempt counts as failed, the error is printed, and a grid is returned. *)
Example template_fill_exhaustion_returns_a_grid :
  fst (random_rail_generator (L := sample_lib) (replicate 3 1%Q) ambient_zero 2 2 1 0)
  = ({| grid := [[0; 0]; [0; 0]] |}, true).
Proof. vm_compute. reflexivity. Qed.

Lemma no_two_agents_share_a_cell_witness :
  NoDup (map position (agents facing_agents_env))
  ∧ NoDup (map position (agents (run [both_forward; both_forward] facing_agents_env)))
  ∧ map position (agents (run [both_forward; both_forward] facing_agents_env))
    = [(3, 2); (3, 3)].
Proof.
  assert (NoDup (map position (agents facing_agents_env))) as Hnd.
  { apply (bool_decide_unpack _). vm_compute. reflexivity. }
  split; [exact Hnd|]. split.
  - exact (proj1 (no_two_agents_share_a_cell [both_forward; both_forward]
                    both_forward 0%nat facing_agents_env Hnd)).
  - vm_compute. reflexivity.
Defined.

Lemma malfunction_tick_witness :
  0 < malfunction (malfunction_data (sample_agent (3, 1) 1 (3, 3) 2))
  ∧ position (fst (fst (fst (process_agent ∅ 0%nat (one_agent_env 2)
                               (sample_agent (3, 1) 1 (3, 3) 2))))) = (3, 1)
  ∧ moving (fst (fst (fst (process_agent ∅ 0%nat (one_agent_env 2)
                             (sample_agent (3, 1) 1 (3, 3) 2))))) = false.
Proof.
  split; [reflexivity|].
  pose proof (malfunction_tick ∅ 0%nat (one_agent_env 2)
                (sample_agent (3, 1) 1 (3, 3) 2) eq_refl eq_refl) as H.
  cbv zeta in H.
  destruct (process_agent ∅ 0%nat (one_agent_env 2) (sample_agent (3, 1) 1 (3, 3) 2))
    as [[[agent' done'] reward'] g'].
  destruct H as (_ & H2 & _).
  destruct (H2 ltac:(vm_compute; discriminate)) as (_ & Hm & Hp & _).
  split; [exact Hp|exact Hm].
Defined.

Lemma one_agent_env_settled : settled (one_agent_env 0).
Proof.
  split; [reflexivity|]. intros [|i] agent Hi Hat.
  - injection Hi as <-. vm_compute in Hat. discriminate Hat.
  - destruct i; discriminate Hi.
Defined.

Lemma arrival_and_rewards_witness :
  settled (one_agent_env 0)
  ∧ settled (fst (step {[0%nat := MOVE_FORWARD]} (one_agent_env 0))).
Proof.
  split; [exact one_agent_env_settled|].
  exact (proj1 (arrival_and_rewards {[0%nat := MOVE_FORWARD]} (one_agent_env 0)
                  one_agent_env_settled)).
Defined.

Lemma single_exit_forcing_witness :
  count_nonzero (get_transitions sample_rail 3 1 1) = 1
  ∧ step (<[0%nat := MOVE_LEFT]> ∅) (one_agent_env 0)
    = step (<[0%nat := MOVE_FORWARD]> ∅) (one_agent_env 0).
Proof.
  split; [reflexivity|].
  exact (proj1 (proj2 (single_exit_forcing ∅ 0%nat (one_agent_env 0)
                         (sample_agent (3, 1) 1 (3, 3) 0) MOVE_LEFT
                         eq_refl eq_refl (or_introl eq_refl)))).
Defined.

Lemma commit_or_retry_witness :
  pre_commit (one_agent_env 0) (sample_agent (3, 1) 1 (3, 3) 0) 0 MOVE_FORWARD
  = Go (advanced_agent, 0%Q)
  ∧ (1 <= position_fraction (speed_data advanced_agent))%Q
  ∧ position (fst (fst (movement (one_agent_env 0) (sample_agent (3, 1) 1 (3, 3) 0)
                          0 MOVE_FORWARD))) = (3, 2).
Proof.
  assert (pre_commit (one_agent_env 0) (sample_agent (3, 1) 1 (3, 3) 0) 0 MOVE_FORWARD
          = Go (advanced_agent, 0%Q)) as Hgo by (vm_compute; reflexivity).
  assert (1 <= position_fraction (speed_data advanced_agent))%Q as Hge
    by (vm_compute; discriminate).
  split; [exact Hgo|]. split; [exact Hge|].
  destruct (commit_or_retry (one_agent_env 0) (sample_agent (3, 1) 1 (3, 3) 0) 0
              MOVE_FORWARD advanced_agent 0 Hgo Hge) as (_ & _ & Hok & _).
  exact (proj1 (Hok eq_refl)).
Defined.

Lemma step_after_global_done_witness :
  dones_all finished_env = true
  ∧ agents (run [both_forward; ∅] finished_env) = agents finished_env
  ∧ rewards_dict (fst (step both_forward finished_env)) = [1%Q].
Proof.
  split; [reflexivity|].
  destruct (step_after_global_done both_forward [both_forward; ∅] finished_env eq_refl)
    as (Hstep & Hrun & _).
  split; [exact Hrun|].
  destruct (step both_forward finished_env) as [e' info].
  exact (proj1 (proj2 (proj2 (proj2 (proj2 Hstep))))).
Defined.

Lemma pair_generation_terminates_witness :
  (2 - 1) + (2 - 1) < 20
  ∧ ∃ g, complex_rail_generator (L := sample_lib) 3 100 20 99999 0
           (Z.to_nat 3 + Z.to_nat sanity_max) ambient_zero 2 2 3 0
         = Some (empty_grid 2 2, {| start_goal := []; start_dir := [] |}, g)
         ∧ Z.of_N (cursor g) <= 2 * (4 * sanity_max).
Proof.
  split; [reflexivity|].
  exact (proj2 (proj2 (pair_generation_terminates (L := sample_lib)
                         3 100 20 99999 0 (Z.to_nat 3 + Z.to_nat sanity_max)
                         ambient_zero 2 2 3 0 (le_n _)))
           eq_refl eq_refl eq_refl).
Defined.

Lemma seeded_generators_are_reproducible_witness :
  complex_rail_generator (L := sample_lib) 1 0 20 99999 1 10 ambient_half 3 3 1 0
  = complex_rail_generator (L := sample_lib) 1 0 20 99999 0 10 ambient_zero 3 3 1 1.
Proof.
  exact (proj1 (proj2 (proj2 (seeded_generators_are_reproducible (L := sample_lib)
                                 1 0 20 99999 0 10 2 false 4 4
                                 ambient_zero ambient_half 3 3 1 1))
                 1 0 eq_refl)).
Defined.

Lemma sparse_generator_raises_witness :
  1 <= 2
  ∧ sparse_two_cities 10 = Raise ValueError
  ∧ sparse_two_cities 3 = Raise ValueError.
Proof.
  split; [discriminate|]. unfold sparse_two_cities. split.
  - apply (sparse_generator_raises (L := sample_lib) 2 4 4 0 ambient_zero
             10 10 1 0); [discriminate|]. intros [H _]. discriminate H.
  - apply (sparse_generator_raises (L := sample_lib) 2 4 4 0 ambient_zero
             3 3 1 0); [discriminate|]. intros [H _]. discriminate H.
Defined.
